(** * store-adapter: the Notifier, the store descriptors and the root registry

    A shallow embedding of [StoreAdapter.tsx].  The repository carries the
    file in two variants:

    - [src/src/StoreAdapter.tsx], whose root keeps the pending registrations
      in an array and exposes [register] on its context (module
      [StoreAdapter] below);
    - the variant built on a scoped model (second document of
      [src/README.md]), whose descriptors carry [keepAlive] and whose root
      keeps a [registered] set (module [ScopedStoreAdapter] below).

    The class [Notifier] and the function [defaultUpdate] are the same text
    in both; they are embedded once. *)

From Stdlib Require Import ZArith List Bool Floats.SpecFloat Lia.
From stdpp Require Import base option list gmap strings pretty.

Set Default Proof Using "Type".

(** ** JavaScript values and [Object.is] *)

Module Js.

(** The values a store can hold.  Numbers are IEEE doubles in the
    Standard Library's [spec_float]: one NaN, two zeros, two infinities.
    Objects and functions are their references. *)
Inductive Value : Type :=
| Undefined
| Null
| Boolean (b : bool)
| Number (n : spec_float)
| String (s : string)
| Object (ref : nat).

(** [Number::sameValue]: NaN is NaN, the two zeros differ, everything
    else is compared as a number. *)
Definition sameValueNumber (x y : spec_float) : bool :=
  match x, y with
  | S754_nan, S754_nan => true
  | S754_zero s1, S754_zero s2 => Bool.eqb s1 s2
  | _, _ => SFeqb x y
  end.

(** [Object.is(x, y)], the SameValue algorithm. *)
Definition Object_is (x y : Value) : bool :=
  match x, y with
  | Undefined, Undefined => true
  | Null, Null => true
  | Boolean a, Boolean b => Bool.eqb a b
  | Number a, Number b => sameValueNumber a b
  | String a, String b => bool_decide (a = b)
  | Object a, Object b => Nat.eqb a b
  | _, _ => false
  end.

(** [x === y], for comparison: NaN differs from itself, the zeros are
    equal. *)
Definition strictEquals (x y : Value) : bool :=
  match x, y with
  | Undefined, Undefined => true
  | Null, Null => true
  | Boolean a, Boolean b => Bool.eqb a b
  | Number a, Number b => SFeqb a b
  | String a, String b => bool_decide (a = b)
  | Object a, Object b => Nat.eqb a b
  | _, _ => false
  end.

Definition NaN : Value := Number S754_nan.
Definition posZero : Value := Number (S754_zero false).
Definition negZero : Value := Number (S754_zero true).
Definition int (n : positive) : Value := Number (S754_finite false n 0).

End Js.

(** [function defaultUpdate(prev, next) { return !Object.is(prev, next); }] *)
Definition defaultUpdate (prev next : Js.Value) : bool :=
  negb (Js.Object_is prev next).

(** ** The class [Notifier] *)

Module Notifier.

(** A listener is a callback; the model keeps its identity.  Listeners are
    the host's subscription callbacks: they return normally and do not
    call back into the Notifier that is notifying them, so a [forEach]
    over the listener set visits it as it stood when [notify] began. *)
Definition Listener : Type := nat.

(** [Set.prototype.add]: an element already present keeps its place. *)
Definition set_add (l : Listener) (ls : list Listener) : list Listener :=
  if bool_decide (l ∈ ls) then ls else ls ++ [l].

(** [Set.prototype.delete]. *)
Definition set_delete (l : Listener) (ls : list Listener) : list Listener :=
  filter (λ x, x ≠ l) ls.

Section WithValue.
Context {T : Type}.

Record t : Type := mk
  { alive : bool;
    listeners : list Listener;   (* a Set, in insertion order *)
    value : T }.

(** One call [listener(value)] made by [notify]; [stored] is what
    [read()] answers while that listener runs. *)
Record Call : Type := call
  { callee : Listener;
    argument : T;
    stored : T }.

(** [constructor(value)] *)
Definition new (v : T) : t := mk true [] v.

Definition read (n : t) : T := value n.

Definition hasListeners (n : t) : bool := Nat.ltb 0 (length (listeners n)).

(** [subscribe(listener)]: the state after the call.  The closure it
    returns is [unsubscribe listener]. *)
Definition subscribe (l : Listener) (n : t) : t :=
  if alive n then mk (alive n) (set_add l (listeners n)) (value n) else n.

Definition unsubscribe (l : Listener) (n : t) : t :=
  if alive n then mk (alive n) (set_delete l (listeners n)) (value n) else n.

(** [notify(value)]: the state after the call and the listener calls
    made, in order. *)
Definition notify (v : T) (n : t) : t * list Call :=
  if alive n then
    let n' := mk (alive n) (listeners n) v in
    (n', map (λ l, call l v (read n')) (listeners n'))
  else (n, []).

Definition destroy (n : t) : t :=
  if alive n then mk false [] (value n) else n.

(** The operations of the class, for sequences of them. *)
Inductive Op : Type :=
| Subscribe (l : Listener)
| Unsubscribe (l : Listener)
| Notify (v : T)
| Destroy
| Read
| HasListeners.

Definition step (n : t) (o : Op) : t :=
  match o with
  | Subscribe l => subscribe l n
  | Unsubscribe l => unsubscribe l n
  | Notify v => fst (notify v n)
  | Destroy => destroy n
  | Read => n
  | HasListeners => n
  end.

Definition run (ops : list Op) (n : t) : t := fold_left step ops n.

(** What the words of the data model promise [read()] to answer after
    a sequence of operations: the argument of the last [notify] made
    before any [destroy], the seed when there is none. *)
Fixpoint lastNotified (live : bool) (current : T) (ops : list Op) : T :=
  match ops with
  | [] => current
  | Notify v :: rest =>
      if live then lastNotified live v rest
      else lastNotified live current rest
  | Destroy :: rest => lastNotified false current rest
  | _ :: rest => lastNotified live current rest
  end.

End WithValue.

Arguments t : clear implicits.
Arguments Call : clear implicits.
Arguments Op : clear implicits.

End Notifier.

(** ** The root of [src/src/StoreAdapter.tsx] *)

Module StoreAdapter.

(** Control leaves a function by [return] or by [throw new Error(..)]. *)
Inductive Completion (A : Type) : Type :=
| Return (a : A)
| Throw (message : string).
Arguments Return {A} a.
Arguments Throw {A} message.

(** The state of the external stores, which the root does not own. *)
Definition Env : Type := nat → Js.Value.

(** [type Unsubscribe = undefined | (() => void) | void]: what a store's
    [subscribe] hands back. *)
Inductive Subscribe : Type :=
| ReturnsTeardown
| ReturnsUndefined.

(** [interface StoreAdapter<T>] *)
Record StoreAdapter : Type :=
  { id : string;
    read : Env → Js.Value;
    subscribe : Subscribe;
    shouldUpdate : Js.Value → Js.Value → bool }.

(** [interface StoreAdapterOptions<T>]; [None] is a property left out. *)
Record StoreAdapterOptions : Type :=
  { options_read : Env → Js.Value;
    options_subscribe : Subscribe;
    options_id : option string;
    options_shouldUpdate : option (Js.Value → Js.Value → bool) }.

(** [getIndex()] on the module-level counter [index]. *)
Definition getIndex (index : nat) : nat * nat := (index, index + 1).

(** [createStoreAdapter(options)]: the defaults, then the spread of
    [options] over them.  The counter advances even when [id] is given. *)
Definition createStoreAdapter (options : StoreAdapterOptions) (index : nat)
  : StoreAdapter * nat :=
  let '(current, index') := getIndex index in
  ({| id := default ("Store-" +:+ pretty current) (options_id options);
      shouldUpdate := default defaultUpdate (options_shouldUpdate options);
      read := options_read options;
      subscribe := options_subscribe options |}, index').

(** Objects live in a heap; closures and the map [memory] hold addresses. *)
Definition Address : Type := nat.

(** The teardown function returned by the n-th call of a store's
    [subscribe]. *)
Definition Handle : Type := nat.

(** [interface StoreAdapterMemory<T>] *)
Record StoreAdapterMemory : Type :=
  { notifier : Notifier.t Js.Value;
    unsubscribe : option Handle }.

(** The thunk [() => { instance.notifier.notify(nextValue); }]. *)
Record Update : Type :=
  { target : Address;
    nextValue : Js.Value }.

(** The closure [checkForUpdates] with what it captures. *)
Record Check : Type :=
  { store : StoreAdapter;
    instance : Address }.

(** Calls that cross the boundary of the root, in the order made: to the
    store's [read] and [subscribe], to a teardown a store returned, to
    [notifier.notify] from an update thunk, and to a listener. *)
Inductive Event : Type :=
| StoreRead (i : string) (v : Js.Value)
| StoreSubscribe (i : string) (h : Handle)
| StoreUnsubscribe (h : Handle)
| Notified (a : Address) (v : Js.Value)
| Listened (l : Notifier.Listener) (v : Js.Value).

(** What [StoreAdapterCore] holds in refs and constants, the macrotasks
    it has set, and the world around it.  [upstream] lists the
    [checkForUpdates] closures handed to stores; the n-th is undone by
    the teardown with handle n.  The version states only ask the host
    to run an effect again; the effects are the functions
    [flushRegistrations] and [flushUpdates] below, run by the host. *)
Record Root : Type := mkRoot
  { isMounted : bool;
    memory : gmap string Address;
    heap : list StoreAdapterMemory;
    pendingStores : list StoreAdapter;
    pendingUpdates : list Update;
    timers : list Update;
    upstream : list Check;
    env : Env;
    trace : list Event }.

Definition set_isMounted (b : bool) (r : Root) : Root :=
  mkRoot b (memory r) (heap r) (pendingStores r) (pendingUpdates r)
         (timers r) (upstream r) (env r) (trace r).
Definition set_memory (m : gmap string Address) (r : Root) : Root :=
  mkRoot (isMounted r) m (heap r) (pendingStores r) (pendingUpdates r)
         (timers r) (upstream r) (env r) (trace r).
Definition set_heap (h : list StoreAdapterMemory) (r : Root) : Root :=
  mkRoot (isMounted r) (memory r) h (pendingStores r) (pendingUpdates r)
         (timers r) (upstream r) (env r) (trace r).
Definition set_pendingStores (p : list StoreAdapter) (r : Root) : Root :=
  mkRoot (isMounted r) (memory r) (heap r) p (pendingUpdates r)
         (timers r) (upstream r) (env r) (trace r).
Definition set_pendingUpdates (p : list Update) (r : Root) : Root :=
  mkRoot (isMounted r) (memory r) (heap r) (pendingStores r) p
         (timers r) (upstream r) (env r) (trace r).
Definition set_timers (t : list Update) (r : Root) : Root :=
  mkRoot (isMounted r) (memory r) (heap r) (pendingStores r)
         (pendingUpdates r) t (upstream r) (env r) (trace r).
Definition set_upstream (u : list Check) (r : Root) : Root :=
  mkRoot (isMounted r) (memory r) (heap r) (pendingStores r)
         (pendingUpdates r) (timers r) u (env r) (trace r).
Definition set_env (e : Env) (r : Root) : Root :=
  mkRoot (isMounted r) (memory r) (heap r) (pendingStores r)
         (pendingUpdates r) (timers r) (upstream r) e (trace r).
Definition log (es : list Event) (r : Root) : Root :=
  mkRoot (isMounted r) (memory r) (heap r) (pendingStores r)
         (pendingUpdates r) (timers r) (upstream r) (env r) (trace r ++ es).

(** A freshly mounted root over the external state [e]. *)
Definition mount (e : Env) : Root := mkRoot true ∅ [] [] [] [] [] e [].

(** An instance after a method call on its [notifier]. *)
Definition touched (f : Notifier.t Js.Value → Notifier.t Js.Value)
    (m : StoreAdapterMemory) : StoreAdapterMemory :=
  {| notifier := f (notifier m); unsubscribe := unsubscribe m |}.

(** A method call on [instance.notifier], for the instance at [a]. *)
Definition onNotifier (a : Address)
    (f : Notifier.t Js.Value → Notifier.t Js.Value) (r : Root) : Root :=
  match heap r !! a with
  | Some m => set_heap (<[a := touched f m]> (heap r)) r
  | None => r
  end.

(** [forEach] of an array, over a state. *)
Definition forEach {A S : Type} (f : A → S → S) (xs : list A) (s : S) : S :=
  fold_left (λ s x, f x s) xs s.

(** [batchUpdates(callback)]: [setTimeout] queues the macrotask. *)
Definition batchUpdates (callback : Update) (r : Root) : Root :=
  set_timers (timers r ++ [callback]) r.

(** The macrotask set by [batchUpdates], when the event loop runs it. *)
Definition timerCallback (callback : Update) (r : Root) : Root :=
  if isMounted r then set_pendingUpdates (pendingUpdates r ++ [callback]) r
  else r.

(** The event loop takes the oldest macrotask. *)
Definition fireTimer (r : Root) : Root :=
  match timers r with
  | [] => r
  | callback :: rest => timerCallback callback (set_timers rest r)
  end.

(** [checkForUpdates], as closed over [store] and [instance]. *)
Definition checkForUpdates (c : Check) (r : Root) : Root :=
  if isMounted r then
    let next := read (store c) (env r) in
    let r1 := log [StoreRead (id (store c)) next] r in
    match heap r1 !! instance c with
    | Some m =>
        if shouldUpdate (store c) (Notifier.read (notifier m)) next
        then batchUpdates {| target := instance c; nextValue := next |} r1
        else r1
    | None => r1
    end
  else r.

(** The store behind subscription [h] changes to the external state [e]
    and calls the callback it was given. *)
Definition storeNotifies (h : Handle) (e : Env) (r : Root) : Root :=
  match upstream r !! h with
  | Some c => checkForUpdates c (set_env e r)
  | None => set_env e r
  end.

(** The body of [batch.forEach((store) => ..)] in the registration
    effect. *)
Definition registerStore (s : StoreAdapter) (r : Root) : Root :=
  match memory r !! id s with
  | Some a =>
      let c := {| store := s; instance := a |} in
      let h := length (upstream r) in
      let r1 := log [StoreSubscribe (id s) h]
                    (set_upstream (upstream r ++ [c]) r) in
      let r2 := checkForUpdates c r1 in
      match subscribe s with
      | ReturnsTeardown =>
          match heap r2 !! a with
          | Some m =>
              set_heap (<[a := {| notifier := notifier m;
                                  unsubscribe := Some h |}]> (heap r2)) r2
          | None => r2
          end
      | ReturnsUndefined => r2
      end
  | None => r
  end.

(** The effect that runs all the pending store registrations. *)
Definition flushRegistrations (r : Root) : Root :=
  let batch := pendingStores r in
  if Nat.ltb 0 (length batch)
  then forEach registerStore batch (set_pendingStores [] r)
  else r.

(** An update thunk, run. *)
Definition runUpdate (u : Update) (r : Root) : Root :=
  let r1 := log [Notified (target u) (nextValue u)] r in
  match heap r1 !! target u with
  | Some m =>
      let '(n, calls) := Notifier.notify (nextValue u) (notifier m) in
      log (map (λ c, Listened (Notifier.callee c) (Notifier.argument c))
               calls)
          (set_heap (<[target u := {| notifier := n;
                                      unsubscribe := unsubscribe m |}]>
                       (heap r1)) r1)
  | None => r1
  end.

(** The effect that runs all scheduled updates. *)
Definition flushUpdates (r : Root) : Root :=
  let batch := pendingUpdates r in
  if Nat.ltb 0 (length batch)
  then forEach (λ update r, if isMounted r then runUpdate update r else r)
               batch (set_pendingUpdates [] r)
  else r.

(** The body of [memory.forEach((item) => ..)] in the cleanup. *)
Definition dispose (a : Address) (r : Root) : Root :=
  match heap r !! a with
  | Some m =>
      let r1 := match unsubscribe m with
                | Some h => log [StoreUnsubscribe h] r
                | None => r
                end in
      onNotifier a Notifier.destroy r1
  | None => r
  end.

(** The root unmounts: the cleanups of its effects, in their order.  The
    entries are visited in the order of [map_to_list]. *)
Definition unmount (r : Root) : Root :=
  let r1 := set_isMounted false r in
  let r2 := forEach dispose (snd <$> map_to_list (memory r1)) r1 in
  set_memory ∅ r2.

(** [getInstance(store)] *)
Definition getInstance (s : StoreAdapter) (r : Root) : Root * Address :=
  match memory r !! id s with
  | Some a => (r, a)
  | None =>
      let v := read s (env r) in
      let r1 := log [StoreRead (id s) v] r in
      let a := length (heap r1) in
      let r2 := set_heap (heap r1 ++ [{| notifier := Notifier.new v;
                                         unsubscribe := None |}]) r1 in
      if isMounted r2
      then (set_memory (<[id s := a]> (memory r2)) r2, a)
      else (r2, a)
  end.

(** The closure returned by the context's [subscribe], with what it
    captures. *)
Record Unsubscriber : Type :=
  { of_store : StoreAdapter;
    of_instance : Address;
    of_callback : Notifier.Listener }.

(** The value that [if (!instance.notifier.hasListeners())] tests. *)
Definition hasListenersAt (a : Address) (r : Root) : bool :=
  match heap r !! a with
  | Some m => Notifier.hasListeners (notifier m)
  | None => false
  end.

(** The closure returned by the context's [subscribe], called. *)
Definition callUnsubscriber (u : Unsubscriber) (r : Root) : Root :=
  let r1 := onNotifier (of_instance u)
              (Notifier.unsubscribe (of_callback u)) r in
  if negb (hasListenersAt (of_instance u) r1) then
    let r2 := dispose (of_instance u) r1 in
    set_memory (delete (id (of_store u)) (memory r2)) r2
  else r1.

(** The instance at [a] has no listener but [callback], and is live if
    it has any. *)
Definition onlyListener (callback : Notifier.Listener) (a : Address)
    (r : Root) : Prop :=
  ∀ m l, heap r !! a = Some m → l ∈ Notifier.listeners (notifier m) →
         Notifier.alive (notifier m) = true ∧ l = callback.

(** [interface StoreAdapterContext] and the object written to
    [contextRef.current]. *)
Record StoreAdapterContext : Type :=
  { register : StoreAdapter → Root → Root;
    context_read : StoreAdapter → Root → Root * Js.Value;
    context_subscribe :
      StoreAdapter → Notifier.Listener → Root → Root * Unsubscriber }.

Definition context : StoreAdapterContext :=
  {| register := λ s r,
       if isMounted r then set_pendingStores (pendingStores r ++ [s]) r
       else r;
     context_read := λ s r,
       let '(r1, a) := getInstance s r in
       (r1, match heap r1 !! a with
            | Some m => Notifier.read (notifier m)
            | None => Js.Undefined
            end);
     context_subscribe := λ s callback r,
       let '(r1, a) := getInstance s r in
       (onNotifier a (Notifier.subscribe callback) r1,
        {| of_store := s; of_instance := a; of_callback := callback |}) |}.

(** [type StoreAdapterContextRef]: a ref whose [current] is the context
    or [undefined]. *)
Record StoreAdapterContextRef : Type :=
  { current : option StoreAdapterContext }.

(** [useStoreAdapterContextRef()]; the argument is what
    [useContext(StoreAdapterContext)] answers, [None] when no provider is
    above the caller. *)
Definition useStoreAdapterContextRef
    (provided : option StoreAdapterContextRef)
  : Completion StoreAdapterContextRef :=
  match provided with
  | Some ref => Return ref
  | None =>
      Throw "Attempt to access missing StoreAdapterContext reference."
  end.

(** [useStoreAdapterContext()] *)
Definition useStoreAdapterContext
    (provided : option StoreAdapterContextRef)
  : Completion StoreAdapterContext :=
  match useStoreAdapterContextRef provided with
  | Return ref =>
      match current ref with
      | Some c => Return c
      | None => Throw "Attempt to access missing StoreAdapterContext."
      end
  | Throw message => Throw message
  end.

(** [function identity(value) { return value; }] *)
Definition identity (value : Js.Value) : Js.Value := value.

(** [interface UseStoreAdapterOptions<T, R>] *)
Record UseStoreAdapterOptions : Type :=
  { getSnapshot : option (Js.Value → Js.Value);
    use_shouldUpdate : option (Js.Value → Js.Value → bool) }.

(** [Subscription<R>] of the hooks library. *)
Record Subscription : Type :=
  { subscription_read : Root → Root * Js.Value;
    subscription_subscribe :
      Notifier.Listener → Root → Root * Unsubscriber;
    subscription_shouldUpdate : Js.Value → Js.Value → bool }.

(** Modelled from the spec: [useSubscription] of the hooks library, which
    is not part of the repository.  Of the host's subscription primitive
    the spec says that [read()] is called during the render to obtain
    the value shown; subscribing is left to the commit. *)
Definition useSubscription (s : Subscription) (r : Root)
  : Root * Js.Value :=
  subscription_read s r.

(** What one render of a consumer yields: the state it shows, the effect
    it leaves for the commit, and its subscription. *)
Record Rendered : Type :=
  { state : Js.Value;
    effect : Root → Root;
    subscription : Subscription }.

(** [useStoreAdapter(store, options?)], one render. *)
Definition useStoreAdapter
    (provided : option StoreAdapterContextRef)
    (s : StoreAdapter) (options : option UseStoreAdapterOptions)
    (r : Root) : Root * Completion Rendered :=
  let snapshot := default identity (options ≫= getSnapshot) in
  let update := default defaultUpdate (options ≫= use_shouldUpdate) in
  match useStoreAdapterContext provided with
  | Throw message => (r, Throw message)
  | Return c =>
      let sub :=
        {| subscription_read := λ r,
             let '(r1, v) := context_read c s r in (r1, snapshot v);
           subscription_subscribe := context_subscribe c s;
           subscription_shouldUpdate := update |} in
      let '(r1, shown) := useSubscription sub r in
      (r1, Return {| state := shown;
                     effect := register c s;
                     subscription := sub |})
  end.

(** A consumer mounts: the host runs the effects of its render in the
    order they were declared, [context.register(store)] and then the
    subscription of [useSubscription] with the host's callback. *)
Definition mountConsumer (rendered : Rendered) (callback : Notifier.Listener)
    (r : Root) : Root * Unsubscriber :=
  subscription_subscribe (subscription rendered) callback
                         (effect rendered r).

End StoreAdapter.

(** ** The root of the scoped-model variant (second document of
    [src/README.md]) *)

Module ScopedStoreAdapter.

Import StoreAdapter (Env, Subscribe, ReturnsTeardown, ReturnsUndefined,
                     Address, Handle, StoreAdapterMemory, notifier,
                     unsubscribe, Update, target, nextValue, getIndex,
                     forEach, touched).

(** [interface StoreAdapter<T>].  [self] is the identity of the
    descriptor object, which [Set<StoreAdapter>] compares. *)
Record StoreAdapter : Type :=
  { self : nat;
    id : string;
    read : Env → Js.Value;
    subscribe : Subscribe;
    shouldUpdate : Js.Value → Js.Value → bool;
    keepAlive : bool }.

(** [interface StoreAdapterOptions<T>] *)
Record StoreAdapterOptions : Type :=
  { options_read : Env → Js.Value;
    options_subscribe : Subscribe;
    options_id : option string;
    options_shouldUpdate : option (Js.Value → Js.Value → bool);
    options_keepAlive : option bool }.

(** [createStoreAdapter(options)]; every call advances the counter, so
    the value it consumed identifies the object it returns. *)
Definition createStoreAdapter (options : StoreAdapterOptions) (index : nat)
  : StoreAdapter * nat :=
  let '(current, index') := getIndex index in
  ({| self := current;
      id := default ("Store-" +:+ pretty current) (options_id options);
      shouldUpdate := default defaultUpdate (options_shouldUpdate options);
      keepAlive := default false (options_keepAlive options);
      read := options_read options;
      subscribe := options_subscribe options |}, index').

Record Check : Type :=
  { store : StoreAdapter;
    instance : Address }.

Inductive Event : Type :=
| StoreRead (i : string) (v : Js.Value)
| StoreSubscribe (i : string) (h : Handle)
| StoreUnsubscribe (h : Handle)
| Notified (a : Address) (v : Js.Value)
| Listened (l : Notifier.Listener) (v : Js.Value).

(** The two macrotasks the root sets. *)
Inductive Macrotask : Type :=
| QueueUpdate (callback : Update)
| RerunRegistrations.

Record Root : Type := mkRoot
  { isMounted : bool;
    memory : gmap string Address;
    heap : list StoreAdapterMemory;
    registered : gset nat;
    pendingStores : list StoreAdapter;   (* a Set, in insertion order *)
    pendingUpdates : list Update;
    timers : list Macrotask;
    upstream : list Check;
    env : Env;
    trace : list Event }.

Definition set_isMounted (b : bool) (r : Root) : Root :=
  mkRoot b (memory r) (heap r) (registered r) (pendingStores r)
         (pendingUpdates r) (timers r) (upstream r) (env r) (trace r).
Definition set_memory (m : gmap string Address) (r : Root) : Root :=
  mkRoot (isMounted r) m (heap r) (registered r) (pendingStores r)
         (pendingUpdates r) (timers r) (upstream r) (env r) (trace r).
Definition set_heap (h : list StoreAdapterMemory) (r : Root) : Root :=
  mkRoot (isMounted r) (memory r) h (registered r) (pendingStores r)
         (pendingUpdates r) (timers r) (upstream r) (env r) (trace r).
Definition set_registered (g : gset nat) (r : Root) : Root :=
  mkRoot (isMounted r) (memory r) (heap r) g (pendingStores r)
         (pendingUpdates r) (timers r) (upstream r) (env r) (trace r).
Definition set_pendingStores (p : list StoreAdapter) (r : Root) : Root :=
  mkRoot (isMounted r) (memory r) (heap r) (registered r) p
         (pendingUpdates r) (timers r) (upstream r) (env r) (trace r).
Definition set_pendingUpdates (p : list Update) (r : Root) : Root :=
  mkRoot (isMounted r) (memory r) (heap r) (registered r) (pendingStores r)
         p (timers r) (upstream r) (env r) (trace r).
Definition set_timers (t : list Macrotask) (r : Root) : Root :=
  mkRoot (isMounted r) (memory r) (heap r) (registered r) (pendingStores r)
         (pendingUpdates r) t (upstream r) (env r) (trace r).
Definition set_upstream (u : list Check) (r : Root) : Root :=
  mkRoot (isMounted r) (memory r) (heap r) (registered r) (pendingStores r)
         (pendingUpdates r) (timers r) u (env r) (trace r).
Definition set_env (e : Env) (r : Root) : Root :=
  mkRoot (isMounted r) (memory r) (heap r) (registered r) (pendingStores r)
         (pendingUpdates r) (timers r) (upstream r) e (trace r).
Definition log (es : list Event) (r : Root) : Root :=
  mkRoot (isMounted r) (memory r) (heap r) (registered r) (pendingStores r)
         (pendingUpdates r) (timers r) (upstream r) (env r) (trace r ++ es).

Definition mount (e : Env) : Root := mkRoot true ∅ [] ∅ [] [] [] [] e [].

Definition onNotifier (a : Address)
    (f : Notifier.t Js.Value → Notifier.t Js.Value) (r : Root) : Root :=
  match heap r !! a with
  | Some m => set_heap (<[a := touched f m]> (heap r)) r
  | None => r
  end.

(** [pendingStores.add(store)] *)
Definition pending_add (s : StoreAdapter) (p : list StoreAdapter)
  : list StoreAdapter :=
  if bool_decide (self s ∈ self <$> p) then p else p ++ [s].

Definition batchUpdates (callback : Update) (r : Root) : Root :=
  set_timers (timers r ++ [QueueUpdate callback]) r.

Definition timerCallback (t : Macrotask) (r : Root) : Root :=
  match t with
  | QueueUpdate callback =>
      if isMounted r
      then set_pendingUpdates (pendingUpdates r ++ [callback]) r
      else r
  | RerunRegistrations => r
  end.

Definition fireTimer (r : Root) : Root :=
  match timers r with
  | [] => r
  | t :: rest => timerCallback t (set_timers rest r)
  end.

Definition checkForUpdates (c : Check) (r : Root) : Root :=
  if isMounted r then
    let next := read (store c) (env r) in
    let r1 := log [StoreRead (id (store c)) next] r in
    match heap r1 !! instance c with
    | Some m =>
        if shouldUpdate (store c) (Notifier.read (notifier m)) next
        then batchUpdates {| target := instance c; nextValue := next |} r1
        else r1
    | None => r1
    end
  else r.

(** The body of [stores.forEach((store) => ..)] in the registration
    effect: [if (instance && !registered.has(store))]. *)
Definition registerStore (s : StoreAdapter) (r : Root) : Root :=
  match memory r !! id s with
  | Some a =>
      if bool_decide (self s ∈ registered r) then r else
      let c := {| store := s; instance := a |} in
      let h := length (upstream r) in
      let r1 := log [StoreSubscribe (id s) h]
                    (set_upstream (upstream r ++ [c]) r) in
      let r2 := checkForUpdates c r1 in
      let r3 :=
        match subscribe s with
        | ReturnsTeardown =>
            match heap r2 !! a with
            | Some m =>
                set_heap (<[a := {| notifier := notifier m;
                                    unsubscribe := Some h |}]> (heap r2)) r2
            | None => r2
            end
        | ReturnsUndefined => r2
        end in
      set_registered ({[self s]} ∪ registered r3) r3
  | None => r
  end.

Definition flushRegistrations (r : Root) : Root :=
  if Nat.ltb 0 (length (pendingStores r))
  then forEach registerStore (pendingStores r) (set_pendingStores [] r)
  else r.

Definition runUpdate (u : Update) (r : Root) : Root :=
  let r1 := log [Notified (target u) (nextValue u)] r in
  match heap r1 !! target u with
  | Some m =>
      let '(n, calls) := Notifier.notify (nextValue u) (notifier m) in
      log (map (λ c, Listened (Notifier.callee c) (Notifier.argument c))
               calls)
          (set_heap (<[target u := {| notifier := n;
                                      unsubscribe := unsubscribe m |}]>
                       (heap r1)) r1)
  | None => r1
  end.

(** The update effect of this variant calls every thunk. *)
Definition flushUpdates (r : Root) : Root :=
  let batch := pendingUpdates r in
  if Nat.ltb 0 (length batch)
  then forEach runUpdate batch (set_pendingUpdates [] r)
  else r.

Definition dispose (a : Address) (r : Root) : Root :=
  match heap r !! a with
  | Some m =>
      let r1 := match unsubscribe m with
                | Some h => log [StoreUnsubscribe h] r
                | None => r
                end in
      onNotifier a Notifier.destroy r1
  | None => r
  end.

(** [getInstance(store)]: a new instance is queued for registration at
    once. *)
Definition getInstance (s : StoreAdapter) (r : Root) : Root * Address :=
  match memory r !! id s with
  | Some a => (r, a)
  | None =>
      let v := read s (env r) in
      let r1 := log [StoreRead (id s) v] r in
      let a := length (heap r1) in
      let r2 := set_heap (heap r1 ++ [{| notifier := Notifier.new v;
                                         unsubscribe := None |}]) r1 in
      if isMounted r2 then
        let r3 := set_memory (<[id s := a]> (memory r2)) r2 in
        let r4 := set_pendingStores (pending_add s (pendingStores r3)) r3 in
        (set_timers (timers r4 ++ [RerunRegistrations]) r4, a)
      else (r2, a)
  end.

Record Unsubscriber : Type :=
  { of_store : StoreAdapter;
    of_instance : Address;
    of_callback : Notifier.Listener }.

Definition hasListenersAt (a : Address) (r : Root) : bool :=
  match heap r !! a with
  | Some m => Notifier.hasListeners (notifier m)
  | None => false
  end.

(** The closure returned by the context's [subscribe], called:
    [if (!(store.keepAlive || instance.notifier.hasListeners()))]. *)
Definition callUnsubscriber (u : Unsubscriber) (r : Root) : Root :=
  let r1 := onNotifier (of_instance u)
              (Notifier.unsubscribe (of_callback u)) r in
  if negb (keepAlive (of_store u) || hasListenersAt (of_instance u) r1) then
    let r2 := dispose (of_instance u) r1 in
    let r3 := set_memory (delete (id (of_store u)) (memory r2)) r2 in
    set_registered (registered r3 ∖ {[self (of_store u)]}) r3
  else r1.

(** [interface StoreAdapterContext] and the object the model returns. *)
Record StoreAdapterContext : Type :=
  { context_read : StoreAdapter → Root → Root * Js.Value;
    context_subscribe :
      StoreAdapter → Notifier.Listener → Root → Root * Unsubscriber }.

Definition context : StoreAdapterContext :=
  {| context_read := λ s r,
       let '(r1, a) := getInstance s r in
       (r1, match heap r1 !! a with
            | Some m => Notifier.read (notifier m)
            | None => Js.Undefined
            end);
     context_subscribe := λ s callback r,
       let '(r1, a) := getInstance s r in
       (onNotifier a (Notifier.subscribe callback) r1,
        {| of_store := s; of_instance := a; of_callback := callback |}) |}.

End ScopedStoreAdapter.

(** ** Inputs used by the examples *)

Module Scenario.

(** The counter of the tests: the external state holds it in cell 0. *)
Definition counterAt (count : Js.Value) : StoreAdapter.Env :=
  λ cell, match cell with 0 => count | _ => Js.Undefined end.

Definition counterOptions : StoreAdapter.StoreAdapterOptions :=
  {| StoreAdapter.options_read := λ e, e 0;
     StoreAdapter.options_subscribe := StoreAdapter.ReturnsTeardown;
     StoreAdapter.options_id := None;
     StoreAdapter.options_shouldUpdate := None |}.

(** [createStoreAdapter({ read, subscribe })], the first call. *)
Definition counter : StoreAdapter.StoreAdapter :=
  fst (StoreAdapter.createStoreAdapter counterOptions 0).

Definition provided : option StoreAdapter.StoreAdapterContextRef :=
  Some {| StoreAdapter.current := Some StoreAdapter.context |}.

(** One consumer renders and mounts under the root, with the host's
    callback [callback]. *)
Definition consume (callback : Notifier.Listener) (r : StoreAdapter.Root)
  : StoreAdapter.Root :=
  match StoreAdapter.useStoreAdapter provided counter None r with
  | (r1, StoreAdapter.Return rendered) =>
      fst (StoreAdapter.mountConsumer rendered callback r1)
  | (r1, StoreAdapter.Throw _) => r1
  end.

(** Two consumers of the counter mount in one commit, then the
    registration effect runs. *)
Definition twoConsumers : StoreAdapter.Root :=
  StoreAdapter.flushRegistrations
    (consume 2 (consume 1 (StoreAdapter.mount (counterAt Js.posZero)))).

(** The test "should capture the safe state then apply correctness": one
    consumer mounts over the counter at 0, then the store is dispatched. *)
Definition dispatchedAfterMount : StoreAdapter.Root :=
  StoreAdapter.storeNotifies 0 (counterAt (Js.int 1))
    (StoreAdapter.flushRegistrations
       (consume 1 (StoreAdapter.mount (counterAt Js.posZero)))).

(** [jest.runAllTimers()] inside [act]: the macrotask, then the effect. *)
Definition timersRun : StoreAdapter.Root :=
  StoreAdapter.flushUpdates (StoreAdapter.fireTimer dispatchedAfterMount).

(** The calls of a store's [subscribe] in a trace. *)
Definition subscribeCalls (i : string) (tr : list StoreAdapter.Event)
  : list StoreAdapter.Handle :=
  omap (λ e, match e with
             | StoreAdapter.StoreSubscribe j h =>
                 if bool_decide (i = j) then Some h else None
             | _ => None
             end) tr.

(** The calls of [notifier.notify] in a trace, as the thunks that made
    them. *)
Definition notifyCalls (tr : list StoreAdapter.Event)
  : list StoreAdapter.Update :=
  omap (λ e, match e with
             | StoreAdapter.Notified a v =>
                 Some {| StoreAdapter.target := a;
                         StoreAdapter.nextValue := v |}
             | _ => None
             end) tr.

(** The same for the scoped-model variant. *)
Definition scopedOptions (keep : bool)
  : ScopedStoreAdapter.StoreAdapterOptions :=
  {| ScopedStoreAdapter.options_read := λ e, e 0;
     ScopedStoreAdapter.options_subscribe := StoreAdapter.ReturnsTeardown;
     ScopedStoreAdapter.options_id := None;
     ScopedStoreAdapter.options_shouldUpdate := None;
     ScopedStoreAdapter.options_keepAlive := Some keep |}.

Definition scopedCounter (keep : bool) : ScopedStoreAdapter.StoreAdapter :=
  fst (ScopedStoreAdapter.createStoreAdapter (scopedOptions keep) 0).

Definition scopedSubscribeCalls (i : string)
    (tr : list ScopedStoreAdapter.Event) : list StoreAdapter.Handle :=
  omap (λ e, match e with
             | ScopedStoreAdapter.StoreSubscribe j h =>
                 if bool_decide (i = j) then Some h else None
             | _ => None
             end) tr.

(** [callbacks] consumers subscribe to one store, one after the other. *)
Definition scopedSubscribeAll (s : ScopedStoreAdapter.StoreAdapter)
    (callbacks : list Notifier.Listener) (r : ScopedStoreAdapter.Root)
  : ScopedStoreAdapter.Root :=
  fold_left
    (λ r c, fst (ScopedStoreAdapter.context_subscribe
                   ScopedStoreAdapter.context s c r))
    callbacks r.

(** A root that unmounted with two thunks still queued. *)
Definition queued : list StoreAdapter.Update :=
  [ {| StoreAdapter.target := 0; StoreAdapter.nextValue := Js.int 1 |};
    {| StoreAdapter.target := 0; StoreAdapter.nextValue := Js.int 2 |} ].

Definition unmountedWithQueue : StoreAdapter.Root :=
  StoreAdapter.set_pendingUpdates queued
    (StoreAdapter.set_isMounted false
       (fst (StoreAdapter.context_read StoreAdapter.context counter
               (StoreAdapter.mount (counterAt Js.posZero))))).

(** The same queue under a mounted root with one listener. *)
Definition mountedWithQueue : StoreAdapter.Root :=
  StoreAdapter.set_pendingUpdates queued
    (fst (StoreAdapter.context_subscribe StoreAdapter.context counter 7
            (StoreAdapter.mount (counterAt Js.posZero)))).

(** One consumer subscribes the callback 9 twice; [bystander] tells
    whether another consumer, with the callback 7, is subscribed too. *)
Definition beforeDuplicate (bystander : bool) : StoreAdapter.Root :=
  let r := fst (StoreAdapter.context_read StoreAdapter.context counter
                  (StoreAdapter.mount (counterAt Js.posZero))) in
  if bystander
  then fst (StoreAdapter.context_subscribe StoreAdapter.context counter 7 r)
  else r.

Definition firstSubscription (bystander : bool)
  : StoreAdapter.Root * StoreAdapter.Unsubscriber :=
  StoreAdapter.context_subscribe StoreAdapter.context counter 9
    (beforeDuplicate bystander).

Definition secondSubscription (bystander : bool)
  : StoreAdapter.Root * StoreAdapter.Unsubscriber :=
  StoreAdapter.context_subscribe StoreAdapter.context counter 9
    (fst (firstSubscription bystander)).

Definition afterFirstUnsubscribe (bystander : bool) : StoreAdapter.Root :=
  StoreAdapter.callUnsubscriber (snd (firstSubscription bystander))
    (fst (secondSubscription bystander)).

Definition afterSecondUnsubscribe (bystander : bool) : StoreAdapter.Root :=
  StoreAdapter.callUnsubscriber (snd (secondSubscription bystander))
    (afterFirstUnsubscribe bystander).

(** What the second unsubscribe reads from [hasListeners()]. *)
Definition secondFindsListeners (bystander : bool) : bool :=
  StoreAdapter.hasListenersAt
    (StoreAdapter.of_instance (snd (secondSubscription bystander)))
    (StoreAdapter.onNotifier
       (StoreAdapter.of_instance (snd (secondSubscription bystander)))
       (Notifier.unsubscribe 9) (afterFirstUnsubscribe bystander)).

(** The calls of upstream teardown functions in a trace. *)
Definition unsubscribeCalls (tr : list StoreAdapter.Event)
  : list StoreAdapter.Handle :=
  omap (λ e, match e with
             | StoreAdapter.StoreUnsubscribe h => Some h
             | _ => None
             end) tr.

(** The consumer with the duplicate callback alone, registered upstream
    before it unsubscribes twice. *)
Definition duplicateRegistered : StoreAdapter.Root :=
  StoreAdapter.callUnsubscriber (snd (secondSubscription false))
    (StoreAdapter.callUnsubscriber (snd (firstSubscription false))
       (StoreAdapter.flushRegistrations
          (StoreAdapter.register StoreAdapter.context counter
             (fst (secondSubscription false))))).

(** A [keepAlive: true] store under the scoped-model root: its one
    consumer subscribes and unsubscribes, then the store moves to 1. *)
Definition keptSubscription
  : ScopedStoreAdapter.Root * ScopedStoreAdapter.Unsubscriber :=
  ScopedStoreAdapter.context_subscribe ScopedStoreAdapter.context
    (scopedCounter true) 7
    (ScopedStoreAdapter.mount (counterAt Js.posZero)).

Definition keptAfterUnsubscribe : ScopedStoreAdapter.Root :=
  ScopedStoreAdapter.callUnsubscriber (snd keptSubscription)
    (fst keptSubscription).

Definition keptLater : ScopedStoreAdapter.Root :=
  ScopedStoreAdapter.set_env (counterAt (Js.int 1)) keptAfterUnsubscribe.

End Scenario.

(** ** The components of [src/src/StoreAdapter.tsx] *)

Module Components.
Import StoreAdapter.

(** [StoreAdapterCore], one render: it takes the ref from the provider
    above it and, when the ref is empty, writes the context object to
    [contextRef.current].  The answer is the ref as the render leaves
    it. *)
Definition StoreAdapterCore (provided : option StoreAdapterContextRef)
  : Completion StoreAdapterContextRef :=
  match useStoreAdapterContextRef provided with
  | Return ref =>
      Return (match current ref with
              | Some _ => ref
              | None => {| current := Some context |}
              end)
  | Throw message => Throw message
  end.

(** [StoreAdapterRootInternal]: a new empty ref is provided, and
    [<StoreAdapterCore />] is rendered before [{children}].  The answer is
    what [useContext(StoreAdapterContext)] gives the children. *)
Definition StoreAdapterRootInternal
  : Completion (option StoreAdapterContextRef) :=
  match StoreAdapterCore (Some {| current := None |}) with
  | Return ref => Return (Some ref)
  | Throw message => Throw message
  end.

(** [StoreAdapterRoot]: under an existing provider the children are
    rendered as they are. *)
Definition StoreAdapterRoot (provided : option StoreAdapterContextRef)
  : Completion (option StoreAdapterContextRef) :=
  match provided with
  | Some ref => Return (Some ref)
  | None => StoreAdapterRootInternal
  end.

End Components.

(** ** What the host and the stores do to a root *)

Module Host.
Import StoreAdapter.

(** The value [instance.notifier.read()] answers for the instance at
    [a]. *)
Definition safeValue (a : Address) (r : Root) : option Js.Value :=
  (Notifier.read ∘ notifier) <$> heap r !! a.

(** Every instance of [r] holds the same value in [r']. *)
Definition keepsValues (r r' : Root) : Prop :=
  ∀ a v, safeValue a r = Some v → safeValue a r' = Some v.

(** The calls a root can receive, the update effect apart: the methods
    of its context, a closure returned by [subscribe], a store calling
    [checkForUpdates], a macrotask, the registration effect, and the
    unmount. *)
Inductive Action : Type :=
| Reads (s : StoreAdapter.StoreAdapter)
| Subscribes (s : StoreAdapter.StoreAdapter) (callback : Notifier.Listener)
| Unsubscribes (u : Unsubscriber)
| Registers (s : StoreAdapter.StoreAdapter)
| StoreNotifies (h : Handle) (e : Env)
| TimerFires
| RegistrationEffect
| Unmounts.

Definition act (r : Root) (action : Action) : Root :=
  match action with
  | Reads s => fst (context_read context s r)
  | Subscribes s callback => fst (context_subscribe context s callback r)
  | Unsubscribes u => callUnsubscriber u r
  | Registers s => register context s r
  | StoreNotifies h e => storeNotifies h e r
  | TimerFires => fireTimer r
  | RegistrationEffect => flushRegistrations r
  | Unmounts => unmount r
  end.

Definition acts (actions : list Action) (r : Root) : Root :=
  fold_left act actions r.

(** One consumer of [s] renders under an established context and mounts
    with the host's callback: the render, then its effects. *)
Definition mounts (s : StoreAdapter.StoreAdapter)
    (options : option UseStoreAdapterOptions)
    (callback : Notifier.Listener) (r : Root) : Root * option Unsubscriber :=
  match useStoreAdapter (Some {| current := Some context |}) s options r with
  | (r1, Return rendered) =>
      let '(r2, u) := mountConsumer rendered callback r1 in (r2, Some u)
  | (r1, Throw _) => (r1, None)
  end.

End Host.

(** ** A root from its mount on *)

Module Session.
Import StoreAdapter.

(** A root together with the closures its [subscribe] has handed out. *)
Record t : Type := mk
  { root : Root;
    closures : list Unsubscriber }.

(** What can happen to a mounted root: the calls of [Host.Action], with a
    closure named by the order in which it was handed out, and the update
    effect. *)
Inductive Call : Type :=
| Reads (s : StoreAdapter.StoreAdapter)
| Subscribes (s : StoreAdapter.StoreAdapter) (callback : Notifier.Listener)
| Unsubscribes (k : nat)
| Registers (s : StoreAdapter.StoreAdapter)
| StoreNotifies (h : Handle) (e : Env)
| TimerFires
| RegistrationEffect
| UpdateEffect
| Unmounts.

Definition call (x : t) (c : Call) : t :=
  match c with
  | Reads s => mk (fst (context_read context s (root x))) (closures x)
  | Subscribes s callback =>
      let '(r, u) := context_subscribe context s callback (root x) in
      mk r (closures x ++ [u])
  | Unsubscribes k =>
      match closures x !! k with
      | Some u => mk (callUnsubscriber u (root x)) (closures x)
      | None => x
      end
  | Registers s => mk (register context s (root x)) (closures x)
  | StoreNotifies h e => mk (storeNotifies h e (root x)) (closures x)
  | TimerFires => mk (fireTimer (root x)) (closures x)
  | RegistrationEffect => mk (flushRegistrations (root x)) (closures x)
  | UpdateEffect => mk (flushUpdates (root x)) (closures x)
  | Unmounts => mk (unmount (root x)) (closures x)
  end.

(** The root mounted over [e], after the calls [calls]. *)
Definition run (calls : list Call) (e : Env) : t :=
  fold_left call calls (mk (mount e) []).

(** The instance at [a] exists and its Notifier is alive. *)
Definition aliveAt (a : Address) (r : Root) : Prop :=
  ∃ m, heap r !! a = Some m ∧ Notifier.alive (notifier m) = true.

(** [r'] has the instances of [r], and those alive in [r] are alive in
    [r']. *)
Definition keepsLive (r r' : Root) : Prop :=
  length (heap r') = length (heap r) ∧ ∀ a, aliveAt a r → aliveAt a r'.

(** Every instance belongs to one store id: an entry under [i] refers to
    a live instance of [i], and a closure of the store [s] holds an
    instance of [id s]. *)
Definition invariant (x : t) : Prop :=
  ∃ owner : Address → string,
    (∀ i a, memory (root x) !! i = Some a →
            owner a = i ∧ aliveAt a (root x))
    ∧ (∀ u, u ∈ closures x →
            owner (of_instance u) = id (of_store u)
            ∧ of_instance u < length (heap (root x))).

End Session.

(** The same for the scoped-model variant. *)

Module ScopedHost.
Import ScopedStoreAdapter.

(** The calls of upstream teardown functions in a trace. *)
Definition unsubscribeCalls (tr : list Event) : list StoreAdapter.Handle :=
  omap (λ e, match e with
             | StoreUnsubscribe h => Some h
             | _ => None
             end) tr.

(** The consumers with the callbacks [callbacks] subscribe to [s], one
    after the other; the closures they get back, in that order. *)
Definition subscribeAll (s : ScopedStoreAdapter.StoreAdapter)
    (callbacks : list Notifier.Listener) (r : Root)
  : Root * list Unsubscriber :=
  fold_left
    (λ '(r, us) callback,
       let '(r', u) := context_subscribe context s callback r in
       (r', us ++ [u]))
    callbacks (r, []).

Definition unsubscribeAll (us : list Unsubscriber) (r : Root) : Root :=
  fold_left (λ r u, callUnsubscriber u r) us r.

End ScopedHost.

(** ** Inputs used by the further examples *)

Module Cases.
Import StoreAdapter.

(** A consumer of the counter mounts and unmounts before the registration
    effect has run. *)
Definition goneBeforeRegistration : Root :=
  match Host.mounts Scenario.counter None 1
                    (mount (Scenario.counterAt Js.posZero)) with
  | (r, Some u) => callUnsubscriber u r
  | (r, None) => r
  end.

(** The consumer with the duplicate callback of [Scenario] has
    unsubscribed once, which evicted the entry; a new consumer with the
    callback 5 has subscribed since and has a new instance, at address 1.
    The second closure of the first consumer is still to be called. *)
Definition newerEntry : Root :=
  fst (context_subscribe context Scenario.counter 5
         (Scenario.afterFirstUnsubscribe false)).

End Cases.

(** * Properties *)

(** ** [Object.is] and the default [shouldUpdate] *)

Section ObjectIs.

Lemma sameValueNumber_eq (x y : spec_float) :
  Js.sameValueNumber x y = true ↔ x = y.
Proof.
  destruct x as [s1|s1| |s1 m1 e1], y as [s2|s2| |s2 m2 e2];
    try destruct s1; try destruct s2; cbn;
    try (split; [discriminate | congruence]); try tauto.
  all: destruct (Z.compare_spec e1 e2) as [He|He|He];
    try (split; [discriminate | intros [= ? ?]; lia]); subst e2;
    rewrite Pos.compare_cont_spec; cbn;
    destruct (Pos.compare_spec m1 m2) as [Hm|Hm|Hm]; cbn;
    try (split; [discriminate | intros [= ?]; lia]);
    subst; tauto.
Qed.

Lemma Object_is_eq (x y : Js.Value) : Js.Object_is x y = true ↔ x = y.
Proof.
  destruct x, y; cbn; try (split; [discriminate | congruence]); try tauto.
  - rewrite Bool.eqb_true_iff. split; congruence.
  - rewrite sameValueNumber_eq. split; congruence.
  - rewrite bool_decide_eq_true. split; congruence.
  - rewrite Nat.eqb_eq. split; congruence.
Qed.

Lemma defaultUpdate_neq (prev next : Js.Value) :
  defaultUpdate prev next = true ↔ prev ≠ next.
Proof.
  unfold defaultUpdate. rewrite negb_true_iff, <- not_true_iff_false.
  by rewrite Object_is_eq.
Qed.

(** Strict inequality would answer otherwise on the edge values. *)
Lemma defaultUpdate_is_not_strict_inequality :
  defaultUpdate Js.NaN Js.NaN = false
  ∧ negb (Js.strictEquals Js.NaN Js.NaN) = true
  ∧ defaultUpdate Js.posZero Js.negZero = true
  ∧ negb (Js.strictEquals Js.posZero Js.negZero) = false.
Proof. by vm_compute. Qed.

(** C7: a descriptor created by [createStoreAdapter] from options that
    leave [shouldUpdate] out answers [shouldUpdate(prev, next)] with
    identity inequality: [true] exactly when [prev] is not [next], for
    all values, NaN and the signed zeros included. *)
Theorem createStoreAdapter_default_shouldUpdate
    (options : StoreAdapter.StoreAdapterOptions) (index : nat)
    (prev next : Js.Value) :
  StoreAdapter.options_shouldUpdate options = None →
  StoreAdapter.shouldUpdate
    (fst (StoreAdapter.createStoreAdapter options index)) prev next = true
  ↔ prev ≠ next.
Proof.
  intros Homitted. cbn. rewrite Homitted. cbn. apply defaultUpdate_neq.
Qed.

Lemma createStoreAdapter_default_shouldUpdate_witness :
  (StoreAdapter.shouldUpdate Scenario.counter Js.NaN Js.NaN = true
   ↔ Js.NaN ≠ Js.NaN)
  ∧ (StoreAdapter.shouldUpdate Scenario.counter Js.posZero Js.negZero = true
     ↔ Js.posZero ≠ Js.negZero).
Proof.
  split.
  - apply (createStoreAdapter_default_shouldUpdate
             Scenario.counterOptions 0 Js.NaN Js.NaN). reflexivity.
  - apply (createStoreAdapter_default_shouldUpdate
             Scenario.counterOptions 0 Js.posZero Js.negZero). reflexivity.
Defined.

(** The scoped-model variant builds the same default. *)
Lemma scoped_createStoreAdapter_default_shouldUpdate
    (options : ScopedStoreAdapter.StoreAdapterOptions) (index : nat)
    (prev next : Js.Value) :
  ScopedStoreAdapter.options_shouldUpdate options = None →
  ScopedStoreAdapter.shouldUpdate
    (fst (ScopedStoreAdapter.createStoreAdapter options index)) prev next
  = true ↔ prev ≠ next.
Proof.
  intros Homitted. cbn. rewrite Homitted. cbn. apply defaultUpdate_neq.
Qed.

End ObjectIs.

(** ** The Notifier *)

Section NotifierFacts.
Context {T : Type}.
Implicit Types (n : Notifier.t T) (o : Notifier.Op T) (l : Notifier.Listener).

Lemma set_delete_idem l (ls : list Notifier.Listener) :
  Notifier.set_delete l (Notifier.set_delete l ls) = Notifier.set_delete l ls.
Proof.
  unfold Notifier.set_delete. induction ls as [|x ls IH]; [done|].
  rewrite filter_cons. case_decide as Hx.
  - rewrite filter_cons, decide_True by done. by rewrite IH.
  - done.
Qed.

Lemma set_delete_not_elem l (ls : list Notifier.Listener) :
  l ∉ Notifier.set_delete l ls.
Proof.
  unfold Notifier.set_delete. rewrite list_elem_of_filter. tauto.
Qed.

Lemma set_delete_absent l (ls : list Notifier.Listener) :
  l ∉ ls → Notifier.set_delete l ls = ls.
Proof.
  unfold Notifier.set_delete. induction ls as [|x ls IH]; [done|].
  rewrite not_elem_of_cons. intros [Hx Hls].
  rewrite filter_cons, decide_True by done. by rewrite IH.
Qed.

Lemma set_add_elem l (ls : list Notifier.Listener) :
  l ∈ Notifier.set_add l ls.
Proof.
  unfold Notifier.set_add. case_bool_decide; [done|].
  apply elem_of_app. right. by apply list_elem_of_singleton.
Qed.

Lemma set_add_idem l (ls : list Notifier.Listener) :
  Notifier.set_add l (Notifier.set_add l ls) = Notifier.set_add l ls.
Proof.
  unfold Notifier.set_add at 1.
  by rewrite bool_decide_eq_true_2 by apply set_add_elem.
Qed.

Lemma set_add_NoDup l (ls : list Notifier.Listener) :
  NoDup ls → NoDup (Notifier.set_add l ls).
Proof.
  intros Hls. unfold Notifier.set_add. case_bool_decide as Hl; [done|].
  apply NoDup_app. split_and!; [done| |apply NoDup_singleton].
  intros x Hx Hx'. apply list_elem_of_singleton in Hx'. by subst.
Qed.

Lemma set_delete_NoDup l (ls : list Notifier.Listener) :
  NoDup ls → NoDup (Notifier.set_delete l ls).
Proof. apply NoDup_filter. Qed.

Lemma step_value n o :
  Notifier.value (Notifier.step n o)
  = match o with
    | Notifier.Notify v => if Notifier.alive n then v else Notifier.value n
    | _ => Notifier.value n
    end.
Proof.
  destruct o; cbn;
    unfold Notifier.subscribe, Notifier.unsubscribe, Notifier.notify,
           Notifier.destroy;
    by destruct (Notifier.alive n).
Qed.

Lemma step_alive n o :
  Notifier.alive (Notifier.step n o)
  = match o with
    | Notifier.Destroy => false
    | _ => Notifier.alive n
    end.
Proof.
  destruct o; cbn;
    unfold Notifier.subscribe, Notifier.unsubscribe, Notifier.notify,
           Notifier.destroy;
    by destruct (Notifier.alive n) eqn:E.
Qed.

Lemma run_cons o (ops : list (Notifier.Op T)) n :
  Notifier.run (o :: ops) n = Notifier.run ops (Notifier.step n o).
Proof. done. Qed.

Lemma run_read (ops : list (Notifier.Op T)) n :
  Notifier.read (Notifier.run ops n)
  = Notifier.lastNotified (Notifier.alive n) (Notifier.value n) ops.
Proof.
  revert n. induction ops as [|o ops IH]; intros n; [done|].
  rewrite run_cons, IH, step_value, step_alive.
  destruct o; cbn; try done. by destruct (Notifier.alive n).
Qed.

Lemma run_NoDup (ops : list (Notifier.Op T)) n :
  NoDup (Notifier.listeners n) →
  NoDup (Notifier.listeners (Notifier.run ops n)).
Proof.
  revert n. induction ops as [|o ops IH]; intros n Hn; [done|].
  rewrite run_cons. apply IH.
  destruct o; cbn;
    unfold Notifier.subscribe, Notifier.unsubscribe, Notifier.notify,
           Notifier.destroy;
    destruct (Notifier.alive n); cbn;
    auto using set_add_NoDup, set_delete_NoDup, NoDup_nil_2.
Qed.

Lemma subscribe_all (ls : list Notifier.Listener) n :
  Notifier.alive n = true →
  NoDup (Notifier.listeners n ++ ls) →
  Notifier.run (Notifier.Subscribe <$> ls) n
  = Notifier.mk true (Notifier.listeners n ++ ls) (Notifier.value n).
Proof.
  revert n. induction ls as [|l ls IH]; intros n Hn Hnd.
  - cbn. rewrite app_nil_r. destruct n; cbn in *. by subst.
  - rewrite fmap_cons, run_cons. cbn [Notifier.step].
    unfold Notifier.subscribe. rewrite Hn.
    assert (Hl : l ∉ Notifier.listeners n).
    { apply NoDup_app in Hnd as (_ & Hdisj & _).
      intros Hin. apply (Hdisj l Hin). left. }
    unfold Notifier.set_add. rewrite bool_decide_eq_false_2 by done.
    rewrite IH; cbn; [by rewrite <- app_assoc|done|by rewrite <- app_assoc].
Qed.

(** C4: the stored value changes only through [notify] on a live
    Notifier; [notify] after [destroy] leaves it as it was; and [read()]
    answers in every state, after any sequence of operations, with the
    last value a live [notify] set, the seed when there was none,
    [destroy] included. *)
Theorem value_changes_only_by_live_notify
    (n : Notifier.t T) (ops : list (Notifier.Op T)) :
  (∀ o, (∀ v, o ≠ Notifier.Notify v) ∨ Notifier.alive n = false →
        Notifier.value (Notifier.step n o) = Notifier.value n)
  ∧ (∀ v, Notifier.alive n = true →
          Notifier.value (Notifier.step n (Notifier.Notify v)) = v)
  ∧ (∀ v, Notifier.value (fst (Notifier.notify v (Notifier.destroy n)))
          = Notifier.value n)
  ∧ Notifier.read (Notifier.run ops n)
    = Notifier.lastNotified (Notifier.alive n) (Notifier.value n) ops
  ∧ Notifier.read (Notifier.destroy (Notifier.run ops n))
    = Notifier.read (Notifier.run ops n).
Proof.
  split_and!.
  - intros o [Hother|Hdead]; rewrite step_value.
    + destruct o; try done. by destruct (Hother v).
    + destruct o; try done. by rewrite Hdead.
  - intros v Hlive. by rewrite step_value, Hlive.
  - intros v. unfold Notifier.notify, Notifier.destroy.
    by destruct (Notifier.alive n) eqn:E; cbn; rewrite ?E.
  - apply run_read.
  - unfold Notifier.read, Notifier.destroy.
    by destruct (Notifier.alive (Notifier.run ops n)).
Qed.

(** C8: on a live Notifier [notify(v)] stores [v] and then calls every
    registered listener with [v], in insertion order, each call made
    with [v] already stored; on a destroyed Notifier it calls nothing. *)
Theorem notify_sets_then_calls_in_order (n : Notifier.t T) (v : T) :
  (Notifier.alive n = true →
     Notifier.notify v n
     = (Notifier.mk true (Notifier.listeners n) v,
        map (λ l, Notifier.call l v v) (Notifier.listeners n)))
  ∧ (∀ seed ls, NoDup ls →
       snd (Notifier.notify v
              (Notifier.run (Notifier.Subscribe <$> ls) (Notifier.new seed)))
       = map (λ l, Notifier.call l v v) ls)
  ∧ (Notifier.alive n = false → Notifier.notify v n = (n, []))
  ∧ snd (Notifier.notify v (Notifier.destroy n)) = [].
Proof.
  split_and!.
  - intros Hlive. unfold Notifier.notify. by rewrite Hlive.
  - intros seed ls Hls. by rewrite subscribe_all.
  - intros Hdead. unfold Notifier.notify. by rewrite Hdead.
  - unfold Notifier.notify, Notifier.destroy.
    by destruct (Notifier.alive n) eqn:E; cbn; rewrite ?E.
Qed.

(** C9: calling the unsubscribe closure twice, calling [destroy] twice,
    or calling anything on a destroyed Notifier changes nothing more:
    listeners, alive flag and value stay as the first call left them.
    No operation has a failing path. *)
Theorem repeated_cleanup_is_noop (n : Notifier.t T) :
  (∀ l, Notifier.unsubscribe l (Notifier.unsubscribe l n)
        = Notifier.unsubscribe l n)
  ∧ Notifier.destroy (Notifier.destroy n) = Notifier.destroy n
  ∧ (∀ o, Notifier.alive n = false → Notifier.step n o = n)
  ∧ (∀ ops, Notifier.run ops (Notifier.destroy n) = Notifier.destroy n)
  ∧ (∀ v, snd (Notifier.notify v (Notifier.destroy n)) = []).
Proof.
  assert (Hstep : ∀ m o, Notifier.alive m = false → Notifier.step m o = m).
  { intros m o Hdead. destruct o; cbn;
      unfold Notifier.subscribe, Notifier.unsubscribe, Notifier.notify,
             Notifier.destroy; by rewrite ?Hdead. }
  assert (Hdead : Notifier.alive (Notifier.destroy n) = false).
  { unfold Notifier.destroy. by destruct (Notifier.alive n) eqn:E. }
  split_and!.
  - intros l. unfold Notifier.unsubscribe.
    destruct (Notifier.alive n) eqn:E; cbn -[Notifier.set_delete];
      rewrite ?E; [|done].
    by rewrite set_delete_idem.
  - unfold Notifier.destroy. by destruct (Notifier.alive n) eqn:E; cbn; rewrite ?E.
  - intros o. apply Hstep.
  - intros ops. induction ops as [|o ops IH]; [done|].
    by rewrite run_cons, Hstep.
  - intros v. unfold Notifier.notify. by rewrite Hdead.
Qed.

End NotifierFacts.

Lemma value_changes_only_by_live_notify_witness :
  Notifier.value
    (Notifier.step (Notifier.destroy (Notifier.new (Js.int 1)))
                   (Notifier.Notify (Js.int 2))) = Js.int 1
  ∧ Notifier.value
      (Notifier.step (Notifier.new (Js.int 1)) (Notifier.Notify (Js.int 2)))
    = Js.int 2
  ∧ Notifier.read
      (Notifier.run [Notifier.Notify (Js.int 2); Notifier.Destroy;
                     Notifier.Notify (Js.int 3); Notifier.Read]
                    (Notifier.new (Js.int 1))) = Js.int 2.
Proof.
  split_and!.
  - destruct (value_changes_only_by_live_notify
                (Notifier.destroy (Notifier.new (Js.int 1))) [])
      as (Hkeep & _).
    apply (Hkeep (Notifier.Notify (Js.int 2))). right. reflexivity.
  - destruct (value_changes_only_by_live_notify
                (Notifier.new (Js.int 1)) [])
      as (_ & Hset & _).
    apply (Hset (Js.int 2)). reflexivity.
  - destruct (value_changes_only_by_live_notify
                (Notifier.new (Js.int 1))
                [Notifier.Notify (Js.int 2); Notifier.Destroy;
                 Notifier.Notify (Js.int 3); Notifier.Read])
      as (_ & _ & _ & Hread & _).
    exact Hread.
Defined.

Lemma notify_sets_then_calls_in_order_witness :
  Notifier.notify (Js.int 5) (Notifier.mk true [3; 1; 2] (Js.int 4))
  = (Notifier.mk true [3; 1; 2] (Js.int 5),
     [Notifier.call 3 (Js.int 5) (Js.int 5);
      Notifier.call 1 (Js.int 5) (Js.int 5);
      Notifier.call 2 (Js.int 5) (Js.int 5)])
  ∧ Notifier.notify (Js.int 5) (Notifier.mk false [] (Js.int 4))
    = (Notifier.mk false [] (Js.int 4), []).
Proof.
  split.
  - destruct (notify_sets_then_calls_in_order
                (Notifier.mk true [3; 1; 2] (Js.int 4)) (Js.int 5))
      as (Hlive & _).
    apply Hlive. reflexivity.
  - destruct (notify_sets_then_calls_in_order
                (Notifier.mk false [] (Js.int 4)) (Js.int 5))
      as (_ & _ & Hdead & _).
    apply Hdead. reflexivity.
Defined.

Lemma repeated_cleanup_is_noop_witness :
  Notifier.step (Notifier.mk false [] (Js.int 4))
                (Notifier.Subscribe 7)
  = Notifier.mk false [] (Js.int 4).
Proof.
  destruct (repeated_cleanup_is_noop (Notifier.mk false [] (Js.int 4)))
    as (_ & _ & Hnoop & _).
  apply (Hnoop (Notifier.Subscribe 7)). reflexivity.
Defined.

(** ** The root of [src/src/StoreAdapter.tsx] *)

Section RootFacts.
Import StoreAdapter.
Implicit Types (r : Root) (s : StoreAdapter.StoreAdapter) (u : Update).

Lemma lookup_fresh {A : Type} (xs : list A) (x : A) :
  (xs ++ [x]) !! length xs = Some x.
Proof. by apply list_lookup_middle. Qed.

Lemma getInstance_absent s r :
  memory r !! id s = None →
  getInstance s r
  = (let r2 := set_heap (heap r ++ [{| notifier := Notifier.new (read s (env r));
                                      unsubscribe := None |}])
                 (log [StoreRead (id s) (read s (env r))] r) in
     if isMounted r
     then set_memory (<[id s := length (heap r)]> (memory r)) r2
     else r2,
     length (heap r)).
Proof.
  intros Habsent. unfold getInstance. rewrite Habsent. cbn.
  by destruct (isMounted r).
Qed.

Lemma getInstance_present s r a :
  memory r !! id s = Some a → getInstance s r = (r, a).
Proof. intros Hpresent. unfold getInstance. by rewrite Hpresent. Qed.

(** C3: with no provider above the caller, [useStoreAdapter] throws the
    configuration error at once, for every store and every options
    object, and leaves the root and the trace of store calls as they
    were: nothing was read, nothing subscribed. *)
Theorem useStoreAdapter_without_root_throws
    s (options : option UseStoreAdapterOptions) r :
  useStoreAdapter None s options r
  = (r, Throw "Attempt to access missing StoreAdapterContext reference.").
Proof. reflexivity. Qed.

(** A provider whose ref is still empty fails the same way, with the
    other message. *)
Lemma useStoreAdapter_without_context_throws
    s (options : option UseStoreAdapterOptions) r :
  useStoreAdapter (Some {| current := None |}) s options r
  = (r, Throw "Attempt to access missing StoreAdapterContext.").
Proof. reflexivity. Qed.

(** C6: for a store without a registry entry, the first read through the
    registry builds a Notifier seeded with [store.read()] taken at that
    moment, and a consumer's first render shows that value; whatever the
    store held earlier plays no part. *)
Theorem first_read_seeds_from_store s r :
  memory r !! id s = None →
  let now := read s (env r) in
  let r' := fst (context_read context s r) in
  snd (context_read context s r) = now
  ∧ heap r' !! length (heap r)
    = Some {| notifier := Notifier.new now; unsubscribe := None |}
  ∧ trace r' = trace r ++ [StoreRead (id s) now]
  ∧ (isMounted r = true → memory r' !! id s = Some (length (heap r)))
  ∧ ∃ rendered,
      snd (useStoreAdapter (Some {| current := Some context |}) s None r)
      = Return rendered
      ∧ state rendered = now.
Proof.
  intros Habsent now r'.
  assert (Hread : context_read context s r
                  = (fst (getInstance s r), now)).
  { cbn. rewrite getInstance_absent by done. cbn.
    destruct (isMounted r); cbn; by rewrite lookup_fresh. }
  subst r'. rewrite Hread. cbn [fst snd].
  rewrite getInstance_absent by done. cbn [fst].
  split_and!.
  - done.
  - destruct (isMounted r); cbn; apply lookup_fresh.
  - by destruct (isMounted r).
  - intros ->. cbn. apply lookup_insert_eq.
  - unfold useStoreAdapter, useSubscription. cbn -[context_read context].
    rewrite Hread. eexists. split; [reflexivity|done].
Qed.

Lemma first_read_seeds_from_store_witness :
  snd (context_read context Scenario.counter
         (mount (Scenario.counterAt (Js.int 1)))) = Js.int 1.
Proof.
  destruct (first_read_seeds_from_store Scenario.counter
              (mount (Scenario.counterAt (Js.int 1)))) as (Hnow & _).
  - reflexivity.
  - exact Hnow.
Defined.

End RootFacts.

Section UpdateQueue.
Import StoreAdapter.
Implicit Types (r : Root) (u : Update).

Lemma notifyCalls_app (t1 t2 : list Event) :
  Scenario.notifyCalls (t1 ++ t2)
  = Scenario.notifyCalls t1 ++ Scenario.notifyCalls t2.
Proof. apply omap_app. Qed.

Lemma notifyCalls_listened (calls : list (Notifier.Call Js.Value)) :
  Scenario.notifyCalls
    (map (λ c, Listened (Notifier.callee c) (Notifier.argument c)) calls)
  = [].
Proof. by induction calls. Qed.

Lemma runUpdate_isMounted u r : isMounted (runUpdate u r) = isMounted r.
Proof.
  unfold runUpdate. cbn.
  destruct (heap r !! target u) as [m|]; [|done].
  by destruct (Notifier.notify (nextValue u) (notifier m)).
Qed.

Lemma runUpdate_pendingUpdates u r :
  pendingUpdates (runUpdate u r) = pendingUpdates r.
Proof.
  unfold runUpdate. cbn.
  destruct (heap r !! target u) as [m|]; [|done].
  by destruct (Notifier.notify (nextValue u) (notifier m)).
Qed.

Lemma runUpdate_notifyCalls u r :
  Scenario.notifyCalls (trace (runUpdate u r))
  = Scenario.notifyCalls (trace r) ++ [u].
Proof.
  unfold runUpdate. cbn.
  destruct (heap r !! target u) as [m|].
  - destruct (Notifier.notify (nextValue u) (notifier m)) as [n calls].
    cbn. rewrite !notifyCalls_app, notifyCalls_listened, app_nil_r.
    by destruct u.
  - cbn. rewrite notifyCalls_app. by destruct u.
Qed.

(** The loop of the update effect, thunk by thunk. *)
Lemma updates_loop (batch : list Update) r :
  let r' := forEach (λ update r, if isMounted r then runUpdate update r else r)
                    batch r in
  isMounted r' = isMounted r
  ∧ pendingUpdates r' = pendingUpdates r
  ∧ Scenario.notifyCalls (trace r')
    = Scenario.notifyCalls (trace r) ++ (if isMounted r then batch else [])
  ∧ (isMounted r = false → r' = r).
Proof.
  revert r. induction batch as [|u batch IH]; intros r; cbn.
  - split_and!; try done. destruct (isMounted r); by rewrite app_nil_r.
  - destruct (isMounted r) eqn:Hm.
    + destruct (IH (runUpdate u r)) as (H1 & H2 & H3 & _).
      unfold forEach in *. rewrite H1, H2, H3.
      rewrite runUpdate_isMounted, runUpdate_pendingUpdates,
              runUpdate_notifyCalls, Hm, <- app_assoc.
      split_and!; done.
    + destruct (IH r) as (H1 & H2 & H3 & H4).
      unfold forEach in *. rewrite H4 by done. rewrite Hm, app_nil_r.
      split_and!; done.
Qed.

(** C5: one flush of the pending-update queue calls the queued thunks in
    the order they were queued, when the root is mounted, and calls none
    of them when it is not; either way the queue is empty afterwards.
    The macrotask that queues a thunk appends it at the end when the
    root is mounted and drops it when it is not. *)
Theorem flushUpdates_fifo_and_liveness r u :
  Scenario.notifyCalls (trace (flushUpdates r))
  = Scenario.notifyCalls (trace r)
    ++ (if isMounted r then pendingUpdates r else [])
  ∧ pendingUpdates (flushUpdates r) = []
  ∧ (isMounted r = false → flushUpdates r = set_pendingUpdates [] r)
  ∧ timerCallback u r
    = (if isMounted r
       then set_pendingUpdates (pendingUpdates r ++ [u]) r
       else r)
  ∧ (isMounted r = false →
     pendingUpdates (flushUpdates (timerCallback u r)) = []
     ∧ trace (flushUpdates (timerCallback u r)) = trace r).
Proof.
  assert (Hflush : ∀ r0,
    Scenario.notifyCalls (trace (flushUpdates r0))
    = Scenario.notifyCalls (trace r0)
      ++ (if isMounted r0 then pendingUpdates r0 else [])
    ∧ pendingUpdates (flushUpdates r0) = []
    ∧ (isMounted r0 = false → flushUpdates r0 = set_pendingUpdates [] r0)).
  { intros r0. unfold flushUpdates.
    destruct (pendingUpdates r0) as [|u0 batch] eqn:Hbatch.
    - cbn. rewrite Hbatch. split_and!; [|done|].
      + destruct (isMounted r0); by rewrite app_nil_r.
      + intros _. destruct r0; cbn in *. by subst.
    - cbn [length Nat.ltb Nat.leb].
      destruct (updates_loop (u0 :: batch) (set_pendingUpdates [] r0))
        as (H1 & H2 & H3 & H4).
      cbn [isMounted set_pendingUpdates pendingUpdates trace] in *.
      split_and!; done. }
  destruct (Hflush r) as (H1 & H2 & H3).
  split_and!; try done.
  intros Hdead. unfold timerCallback. rewrite Hdead.
  split; [done|]. by rewrite H3.
Qed.

Lemma flushUpdates_fifo_and_liveness_witness :
  flushUpdates Scenario.unmountedWithQueue
  = set_pendingUpdates [] Scenario.unmountedWithQueue.
Proof.
  destruct (flushUpdates_fifo_and_liveness Scenario.unmountedWithQueue
              {| target := 0; nextValue := Js.int 3 |})
    as (_ & _ & Hdropped & _).
  apply Hdropped. reflexivity.
Defined.

(** Two thunks queued on a mounted root run first in, first out. *)
Example flushUpdates_runs_in_order :
  trace (flushUpdates Scenario.mountedWithQueue)
  = trace Scenario.mountedWithQueue
      ++ [ Notified 0 (Js.int 1); Listened 7 (Js.int 1);
           Notified 0 (Js.int 2); Listened 7 (Js.int 2) ]
  ∧ pendingUpdates (flushUpdates Scenario.mountedWithQueue) = [].
Proof. by vm_compute. Qed.

(** The repository's test of a dispatch after mount: the consumer keeps
    reading 0 until the timers have run, then reads 1 and its callback
    has been called with 1. *)
Example dispatch_after_mount_is_deferred :
  snd (context_read context Scenario.counter Scenario.dispatchedAfterMount)
  = Js.posZero
  ∧ snd (context_read context Scenario.counter Scenario.timersRun) = Js.int 1
  ∧ Listened 1 (Js.int 1) ∈ trace Scenario.timersRun.
Proof.
  split_and!; [by vm_compute..|].
  vm_compute. repeat first [by left | right].
Qed.

(** After the root has unmounted its flag is down, so every update still
    pending is dropped. *)
Lemma unmount_isMounted r : isMounted (unmount r) = false.
Proof.
  unfold unmount. cbn.
  assert (H : ∀ (addresses : list Address) r0,
             isMounted r0 = false →
             isMounted (forEach dispose addresses r0) = false).
  { induction addresses as [|a addresses IH]; intros r0 H0; [done|].
    cbn. apply IH. unfold dispose, onNotifier.
    destruct (heap r0 !! a) as [m|]; [|done].
    destruct (unsubscribe m); cbn;
      rewrite ?lookup_app_l; destruct (heap r0 !! a); done. }
  apply H. done.
Qed.

End UpdateQueue.

Section Registration.
Import StoreAdapter.
Implicit Types (r : Root) (s : StoreAdapter.StoreAdapter).

Lemma subscribeCalls_app i (t1 t2 : list Event) :
  Scenario.subscribeCalls i (t1 ++ t2)
  = Scenario.subscribeCalls i t1 ++ Scenario.subscribeCalls i t2.
Proof. apply omap_app. Qed.

Lemma checkForUpdates_frame (c : Check) r :
  isMounted (checkForUpdates c r) = isMounted r
  ∧ memory (checkForUpdates c r) = memory r
  ∧ heap (checkForUpdates c r) = heap r
  ∧ upstream (checkForUpdates c r) = upstream r
  ∧ pendingStores (checkForUpdates c r) = pendingStores r
  ∧ ∀ i, Scenario.subscribeCalls i (trace (checkForUpdates c r))
         = Scenario.subscribeCalls i (trace r).
Proof.
  unfold checkForUpdates. destruct (isMounted r) eqn:Hm; [|done]. cbn.
  destruct (heap r !! instance c) as [m|]; cbn;
    [destruct (shouldUpdate _ _ _); cbn|];
    rewrite Hm; split_and!; try done;
    intros i; unfold Scenario.subscribeCalls; rewrite omap_app; cbn;
    by rewrite app_nil_r.
Qed.

(** Every pass of the registration loop over a store that has an
    instance calls the store's [subscribe]: nothing records that it was
    called before. *)
Lemma registerStore_subscribes s r a :
  memory r !! id s = Some a →
  isMounted (registerStore s r) = isMounted r
  ∧ memory (registerStore s r) = memory r
  ∧ length (upstream (registerStore s r)) = S (length (upstream r))
  ∧ Scenario.subscribeCalls (id s) (trace (registerStore s r))
    = Scenario.subscribeCalls (id s) (trace r) ++ [length (upstream r)].
Proof.
  intros Hpresent. unfold registerStore. rewrite Hpresent.
  set (c := {| store := s; instance := a |}).
  set (r1 := log _ _).
  destruct (checkForUpdates_frame c r1) as (Hm & Hmem & Hheap & Hup & _ & Htr).
  assert (Hcalls : Scenario.subscribeCalls (id s) (trace r1)
                   = Scenario.subscribeCalls (id s) (trace r)
                       ++ [length (upstream r)]).
  { subst r1. cbn [trace log set_upstream].
    rewrite subscribeCalls_app. cbn.
    by rewrite bool_decide_eq_true_2. }
  assert (Hlen : length (upstream r1) = S (length (upstream r))).
  { subst r1. cbn. rewrite length_app. cbn. lia. }
  destruct (subscribe s); [destruct (heap _ !! a)|];
    cbn [isMounted memory upstream trace set_heap];
    rewrite ?Hm, ?Hmem, ?Hup, ?Htr, ?Hcalls, ?Hlen; done.
Qed.

Lemma registrations_loop s a (k : nat) r :
  memory r !! id s = Some a →
  Scenario.subscribeCalls (id s)
    (trace (forEach registerStore (replicate k s) r))
  = Scenario.subscribeCalls (id s) (trace r)
      ++ seq (length (upstream r)) k.
Proof.
  revert r. induction k as [|k IH]; intros r Hpresent; cbn.
  - by rewrite app_nil_r.
  - destruct (registerStore_subscribes s r a Hpresent)
      as (_ & Hmem & Hlen & Hcalls).
    unfold forEach in IH. rewrite IH by by rewrite Hmem.
    by rewrite Hcalls, Hlen, <- app_assoc.
Qed.

(** A store that [k] consumers register before the effect runs is
    subscribed to [k] times by that one run. *)
Lemma registrations_subscribe_once_each s a (k : nat) r :
  isMounted r = true →
  memory r !! id s = Some a →
  pendingStores r = [] →
  length (Scenario.subscribeCalls (id s)
            (trace (flushRegistrations (Nat.iter k (register context s) r))))
  = length (Scenario.subscribeCalls (id s) (trace r)) + k.
Proof.
  intros Hm Hpresent Hempty.
  set (registered := λ k, Nat.iter k (register context s) r).
  assert (Hiter : ∀ k,
    isMounted (registered k) = true ∧ memory (registered k) = memory r
    ∧ trace (registered k) = trace r
    ∧ upstream (registered k) = upstream r
    ∧ pendingStores (registered k) = replicate k s).
  { clear k. induction k as [|k (H1 & H2 & H3 & H4 & H6)]; [done|].
    assert (Hstep : registered (S k)
                    = register context s (registered k)) by done.
    rewrite Hstep. cbn [register context]. rewrite H1.
    cbn [isMounted memory trace upstream pendingStores set_pendingStores].
    rewrite H6. split_and!; try done.
    change (replicate k s ++ [s]) with (replicate k s ++ replicate 1 s).
    rewrite <- replicate_add. f_equal. lia. }
  fold (registered k).
  destruct (Hiter k) as (H1 & H2 & H3 & H4 & H6).
  unfold flushRegistrations. rewrite H6.
  destruct k as [|k].
  - cbn [replicate length Nat.ltb Nat.leb]. rewrite H3. lia.
  - rewrite length_replicate. cbn [Nat.ltb Nat.leb].
    rewrite registrations_loop with (a := a)
      by (cbn [memory set_pendingStores]; by rewrite H2).
    cbn [trace upstream set_pendingStores].
    rewrite length_app, length_seq, H3. done.
Qed.

(** C1, on [src/src/StoreAdapter.tsx]: two consumers of one store mount,
    the registration effect runs once, and the store's [subscribe] has
    been called twice; the entry keeps the second teardown only. *)
Theorem two_consumers_two_upstream_subscriptions :
  Scenario.subscribeCalls "Store-0" (trace Scenario.twoConsumers) = [0; 1]
  ∧ unsubscribe <$> heap Scenario.twoConsumers !! 0 = Some (Some 1)
  ∧ (Notifier.listeners ∘ notifier) <$> heap Scenario.twoConsumers !! 0
    = Some [1; 2].
Proof. by vm_compute. Qed.

End Registration.

(** ** The root of the scoped-model variant *)

Section ScopedRegistry.
Import ScopedStoreAdapter.
Implicit Types (r : Root) (s : ScopedStoreAdapter.StoreAdapter).

Lemma scoped_onNotifier_frame a f r :
  isMounted (onNotifier a f r) = isMounted r
  ∧ memory (onNotifier a f r) = memory r
  ∧ registered (onNotifier a f r) = registered r
  ∧ pendingStores (onNotifier a f r) = pendingStores r
  ∧ upstream (onNotifier a f r) = upstream r
  ∧ env (onNotifier a f r) = env r
  ∧ trace (onNotifier a f r) = trace r.
Proof. unfold onNotifier. by destruct (heap r !! a). Qed.

Lemma scoped_onNotifier_lookup a f r :
  heap (onNotifier a f r) !! a = StoreAdapter.touched f <$> heap r !! a.
Proof.
  unfold onNotifier. destruct (heap r !! a) as [m|] eqn:Hm; cbn.
  - apply list_lookup_insert_eq. by eapply lookup_lt_Some.
  - by rewrite Hm.
Qed.

Lemma scoped_getInstance_present s r a :
  memory r !! id s = Some a → getInstance s r = (r, a).
Proof. intros Hpresent. unfold getInstance. by rewrite Hpresent. Qed.

Lemma scoped_getInstance_mounted s r :
  isMounted r = true →
  isMounted (fst (getInstance s r)) = true
  ∧ memory (fst (getInstance s r)) !! id s = Some (snd (getInstance s r))
  ∧ (memory r !! id s = None →
     heap (fst (getInstance s r)) !! snd (getInstance s r)
     = Some {| StoreAdapter.notifier := Notifier.new (read s (env r));
               StoreAdapter.unsubscribe := None |}).
Proof.
  intros Hm. unfold getInstance.
  destruct (memory r !! id s) as [a|] eqn:Hlookup; cbn; [done|].
  rewrite Hm. cbn. rewrite lookup_insert_eq.
  split_and!; try done. intros _. by apply list_lookup_middle.
Qed.

Lemma scoped_checkForUpdates_frame (c : Check) r :
  isMounted (checkForUpdates c r) = isMounted r
  ∧ memory (checkForUpdates c r) = memory r
  ∧ heap (checkForUpdates c r) = heap r
  ∧ registered (checkForUpdates c r) = registered r
  ∧ pendingStores (checkForUpdates c r) = pendingStores r
  ∧ ∀ i, Scenario.scopedSubscribeCalls i (trace (checkForUpdates c r))
         = Scenario.scopedSubscribeCalls i (trace r).
Proof.
  unfold checkForUpdates. destruct (isMounted r) eqn:Hm; [|done]. cbn.
  destruct (heap r !! instance c) as [m|]; cbn;
    [destruct (shouldUpdate _ _ _); cbn|];
    rewrite Hm; split_and!; try done;
    intros i; unfold Scenario.scopedSubscribeCalls; rewrite omap_app; cbn;
    by rewrite app_nil_r.
Qed.

(** The idempotency check of this variant: a registered store is
    skipped. *)
Lemma scoped_registerStore_registered s r :
  self s ∈ registered r → registerStore s r = r.
Proof.
  intros Hin. unfold registerStore.
  destruct (memory r !! id s); [|done].
  by rewrite bool_decide_eq_true_2.
Qed.

Lemma scoped_registerStore_first s r a :
  memory r !! id s = Some a →
  self s ∉ registered r →
  self s ∈ registered (registerStore s r)
  ∧ pendingStores (registerStore s r) = pendingStores r
  ∧ Scenario.scopedSubscribeCalls (id s) (trace (registerStore s r))
    = Scenario.scopedSubscribeCalls (id s) (trace r)
        ++ [length (upstream r)].
Proof.
  intros Hpresent Hfresh. unfold registerStore. rewrite Hpresent.
  rewrite bool_decide_eq_false_2 by done.
  set (c := {| store := s; instance := a |}).
  set (r1 := log _ _).
  destruct (scoped_checkForUpdates_frame c r1)
    as (_ & _ & _ & Hreg & Hpend & Htr).
  assert (Hcalls : Scenario.scopedSubscribeCalls (id s) (trace r1)
                   = Scenario.scopedSubscribeCalls (id s) (trace r)
                       ++ [length (upstream r)]).
  { subst r1. cbn [trace log set_upstream].
    unfold Scenario.scopedSubscribeCalls. rewrite omap_app. cbn.
    by rewrite bool_decide_eq_true_2. }
  destruct (subscribe s) eqn:Hsub; rewrite ?Hsub;
    [destruct (heap _ !! a)|];
    cbn [registered pendingStores trace set_heap set_registered];
    rewrite ?Hreg, ?Hpend, ?Htr, ?Hcalls;
    (split_and!; [apply elem_of_union; left; by apply elem_of_singleton
                 |done|done]).
Qed.

(** However many consumers subscribe to one store under a fresh root,
    the registration effect calls the store's [subscribe] once, and
    running the loop over the store again calls nothing. *)
Lemma scoped_single_upstream_subscription
    (e : StoreAdapter.Env) s (c : Notifier.Listener)
    (cs : list Notifier.Listener) (k : nat) :
  let r := flushRegistrations
             (Scenario.scopedSubscribeAll s (c :: cs) (mount e)) in
  Scenario.scopedSubscribeCalls (id s) (trace r) = [0]
  ∧ StoreAdapter.forEach registerStore (replicate k s) r = r.
Proof.
  set (P := λ r, isMounted r = true ∧ memory r !! id s = Some 0
                 ∧ pendingStores r = [s] ∧ registered r = ∅
                 ∧ trace r = [StoreRead (id s) (read s e)]
                 ∧ upstream r = []).
  assert (Hfirst : P (fst (context_subscribe context s c (mount e)))).
  { unfold P. cbn [context_subscribe context]. unfold getInstance.
    cbn [memory mount]. rewrite lookup_empty. cbn -[insert lookup].
    match goal with
    | |- context [onNotifier ?a ?f ?x] =>
        destruct (scoped_onNotifier_frame a f x)
          as (F1 & F2 & F3 & F4 & F5 & _ & F7)
    end.
    rewrite F1, F2, F3, F4, F5, F7. cbn -[insert lookup].
    by rewrite lookup_insert_eq. }
  assert (Hstep : ∀ c' r, P r → P (fst (context_subscribe context s c' r))).
  { intros c' r (H1 & H2 & H3 & H4 & H5 & H6).
    cbn [context_subscribe context].
    rewrite (scoped_getInstance_present s r 0 H2). cbn [fst].
    destruct (scoped_onNotifier_frame 0 (Notifier.subscribe c') r)
      as (F1 & F2 & F3 & F4 & F5 & _ & F7).
    unfold P. by rewrite F1, F2, F3, F4, F5, F7. }
  assert (Hall : ∀ cs r, P r → P (Scenario.scopedSubscribeAll s cs r)).
  { clear cs. induction cs as [|c' cs IH]; intros r HP; [done|].
    cbn. apply IH. by apply Hstep. }
  intros r.
  destruct (Hall cs _ Hfirst) as (H1 & H2 & H3 & H4 & H5 & H6).
  change (Scenario.scopedSubscribeAll s (c :: cs) (mount e))
    with (Scenario.scopedSubscribeAll s cs
            (fst (context_subscribe context s c (mount e)))) in r.
  set (r0 := Scenario.scopedSubscribeAll s cs _) in *.
  assert (Hr : r = registerStore s (set_pendingStores [] r0)).
  { subst r. unfold flushRegistrations. by rewrite H3. }
  destruct (scoped_registerStore_first s (set_pendingStores [] r0) 0)
    as (G1 & G2 & G3).
  { done. }
  { cbn [registered set_pendingStores]. rewrite H4. set_solver. }
  rewrite Hr. split.
  - rewrite G3. cbn [trace upstream set_pendingStores]. by rewrite H5, H6.
  - induction k as [|k IH]; [done|].
    cbn. by rewrite scoped_registerStore_registered.
Qed.

(** C2: under a mounted root, when a consumer of a [keepAlive: true]
    store unsubscribes, the last one included, no call crosses to the
    store (no upstream unsubscribe), the Notifier keeps its alive flag
    and its value and loses only that listener, and the entry stays in
    the registry; a later read or subscription under the same id, after
    the store has moved on, finds the same instance, makes no call to
    [store.read()] and answers with the stored value. *)
Theorem keepAlive_retains_entry
    s s' (c c' : Notifier.Listener) r (e' : StoreAdapter.Env) :
  keepAlive s = true →
  isMounted r = true →
  id s' = id s →
  let r1 := fst (context_subscribe context s c r) in
  let u := snd (context_subscribe context s c r) in
  let r2 := callUnsubscriber u r1 in
  let later := set_env e' r2 in
  trace r2 = trace r1
  ∧ memory r2 !! id s = Some (of_instance u)
  ∧ heap r2 !! of_instance u
    = StoreAdapter.touched (Notifier.unsubscribe c) <$> heap r1 !! of_instance u
  ∧ (Notifier.alive ∘ StoreAdapter.notifier) <$> heap r2 !! of_instance u
    = (Notifier.alive ∘ StoreAdapter.notifier) <$> heap r1 !! of_instance u
  ∧ context_read context s' later
    = (later, snd (context_read context s r1))
  ∧ of_instance (snd (context_subscribe context s' c' later))
    = of_instance u
  ∧ trace (fst (context_subscribe context s' c' later)) = trace r1
  ∧ (memory r !! id s = None →
     snd (context_read context s' later) = read s (env r)).
Proof.
  intros Hkeep Hm Hid r1 u r2 later.
  destruct (scoped_getInstance_mounted s r Hm) as (Hm1 & Hmem1 & Hnew).
  set (a := snd (getInstance s r)) in *.
  assert (Hu : u = {| of_store := s; of_instance := a; of_callback := c |}).
  { subst u a. cbn. by destruct (getInstance s r). }
  assert (Hr1 : r1 = onNotifier a (Notifier.subscribe c)
                       (fst (getInstance s r))).
  { subst r1 a. cbn. by destruct (getInstance s r). }
  destruct (scoped_onNotifier_frame a (Notifier.subscribe c)
              (fst (getInstance s r)))
    as (F1 & F2 & _ & _ & _ & _ & F7).
  rewrite <- Hr1 in F1, F2, F7.
  assert (Hr2 : r2 = onNotifier a (Notifier.unsubscribe c) r1).
  { subst r2. unfold callUnsubscriber. rewrite Hu. cbn. by rewrite Hkeep. }
  destruct (scoped_onNotifier_frame a (Notifier.unsubscribe c) r1)
    as (G1 & G2 & _ & _ & _ & _ & G7).
  rewrite <- Hr2 in G1, G2, G7.
  assert (Hheap2 : heap r2 !! a
                   = StoreAdapter.touched (Notifier.unsubscribe c) <$> heap r1 !! a).
  { rewrite Hr2. apply scoped_onNotifier_lookup. }
  assert (Hmem2 : memory r2 !! id s = Some a) by by rewrite G2, F2.
  assert (Hvalue : ∀ m, Notifier.value
                          (StoreAdapter.notifier
                             (StoreAdapter.touched (Notifier.unsubscribe c) m))
                        = Notifier.value (StoreAdapter.notifier m)).
  { intros m. cbn. unfold Notifier.unsubscribe.
    by destruct (Notifier.alive (StoreAdapter.notifier m)). }
  assert (Halive : ∀ m, Notifier.alive
                          (StoreAdapter.notifier
                             (StoreAdapter.touched (Notifier.unsubscribe c) m))
                        = Notifier.alive (StoreAdapter.notifier m)).
  { intros m. cbn. unfold Notifier.unsubscribe.
    by destruct (Notifier.alive (StoreAdapter.notifier m)) eqn:E. }
  assert (Hread1 : context_read context s r1
                   = (r1, match heap r1 !! a with
                          | Some m => Notifier.read (StoreAdapter.notifier m)
                          | None => Js.Undefined
                          end)).
  { cbn [context_read context].
    rewrite (scoped_getInstance_present s r1 a) by by rewrite F2. done. }
  assert (Hread2 : context_read context s' later
                   = (later, snd (context_read context s r1))).
  { rewrite Hread1. cbn [snd context_read context].
    rewrite (scoped_getInstance_present s' later a)
      by (subst later; cbn [memory set_env]; by rewrite Hid).
    subst later. cbn [heap set_env].
    rewrite Hheap2. destruct (heap r1 !! a) as [m|]; cbn; [|done].
    unfold Notifier.read. by rewrite <- (Hvalue m). }
  rewrite Hu. cbn [of_instance].
  split_and!.
  - by rewrite G7.
  - done.
  - done.
  - rewrite Hheap2. destruct (heap r1 !! a) as [m|]; cbn; [|done].
    f_equal. unfold Notifier.unsubscribe.
    by destruct (Notifier.alive (StoreAdapter.notifier m)) eqn:E.
  - done.
  - cbn [context_subscribe context].
    rewrite (scoped_getInstance_present s' later a)
      by (subst later; cbn [memory set_env]; by rewrite Hid).
    done.
  - cbn [context_subscribe context].
    rewrite (scoped_getInstance_present s' later a)
      by (subst later; cbn [memory set_env]; by rewrite Hid).
    cbn [fst].
    destruct (scoped_onNotifier_frame a (Notifier.subscribe c') later)
      as (_ & _ & _ & _ & _ & _ & K7).
    rewrite K7. subst later. cbn [trace set_env]. by rewrite G7.
  - intros Habsent. rewrite Hread2, Hread1. cbn [snd].
    rewrite Hr1, scoped_onNotifier_lookup, (Hnew Habsent). cbn.
    done.
Qed.

Lemma keepAlive_retains_entry_witness :
  trace Scenario.keptAfterUnsubscribe = trace (fst Scenario.keptSubscription)
  ∧ snd (context_read context (Scenario.scopedCounter true)
           Scenario.keptLater) = Js.posZero.
Proof.
  destruct (keepAlive_retains_entry
              (Scenario.scopedCounter true) (Scenario.scopedCounter true)
              7 8 (mount (Scenario.counterAt Js.posZero))
              (Scenario.counterAt (Js.int 1)))
    as (Htrace & _ & _ & _ & _ & _ & _ & Hvalue);
    [reflexivity|reflexivity|reflexivity|].
  split; [exact Htrace|]. apply Hvalue. reflexivity.
Defined.

(** Without [keepAlive] the last unsubscribe evicts, and the next read
    seeds a new Notifier from [store.read()]. *)
Example scoped_eviction_without_keepAlive :
  memory (callUnsubscriber
            (snd (context_subscribe context (Scenario.scopedCounter false) 7
                    (mount (Scenario.counterAt Js.posZero))))
            (fst (context_subscribe context (Scenario.scopedCounter false) 7
                    (mount (Scenario.counterAt Js.posZero)))))
    !! "Store-0" = None.
Proof. by vm_compute. Qed.

End ScopedRegistry.

(** ** A callback subscribed twice *)

Section DuplicateCallback.
Import StoreAdapter.
Implicit Types (r : Root) (s : StoreAdapter.StoreAdapter)
               (a b : Address) (cb : Notifier.Listener).

Lemma onNotifier_frame a f r :
  isMounted (onNotifier a f r) = isMounted r
  ∧ memory (onNotifier a f r) = memory r
  ∧ env (onNotifier a f r) = env r
  ∧ trace (onNotifier a f r) = trace r.
Proof. unfold onNotifier. by destruct (heap r !! a). Qed.

Lemma onNotifier_lookup a b f r :
  heap (onNotifier a f r) !! b
  = if decide (a = b) then touched f <$> heap r !! a else heap r !! b.
Proof.
  unfold onNotifier. destruct (heap r !! a) as [m|] eqn:Hm; cbn.
  - case_decide as Hab.
    + subst b. apply list_lookup_insert_eq. by eapply lookup_lt_Some.
    + by apply list_lookup_insert_ne.
  - case_decide as Hab; [by subst b|done].
Qed.

Lemma dispose_frame a r :
  isMounted (dispose a r) = isMounted r
  ∧ memory (dispose a r) = memory r
  ∧ ∀ b, heap (dispose a r) !! b
         = if decide (a = b) then touched Notifier.destroy <$> heap r !! a
           else heap r !! b.
Proof.
  unfold dispose. destruct (heap r !! a) as [m|] eqn:Hm.
  - set (r1 := match unsubscribe m with Some _ => _ | None => _ end).
    assert (Hr1 : isMounted r1 = isMounted r ∧ memory r1 = memory r
                  ∧ heap r1 = heap r).
    { subst r1. by destruct (unsubscribe m). }
    destruct Hr1 as (H1 & H2 & H3).
    destruct (onNotifier_frame a Notifier.destroy r1) as (F1 & F2 & _).
    rewrite F1, F2, H1, H2. split_and!; try done.
    intros b. rewrite onNotifier_lookup, H3. by rewrite Hm.
  - split_and!; try done. intros b. case_decide; [subst b|done].
    by rewrite Hm.
Qed.

Lemma set_delete_only cb (ls : list Notifier.Listener) :
  (∀ l, l ∈ ls → l = cb) → Notifier.set_delete cb ls = [].
Proof.
  unfold Notifier.set_delete. induction ls as [|x ls IH]; intros Hall.
  - done.
  - rewrite filter_cons, decide_False.
    + apply IH. intros l Hl. apply Hall. by right.
    + intros Hx. apply Hx, Hall. by left.
Qed.

Lemma unsubscribe_only cb (n : Notifier.t Js.Value) :
  (∀ l, l ∈ Notifier.listeners n → Notifier.alive n = true ∧ l = cb) →
  Notifier.listeners (Notifier.unsubscribe cb n) = [].
Proof.
  intros Hall. unfold Notifier.unsubscribe.
  destruct (Notifier.alive n) eqn:Halive; cbn -[Notifier.set_delete].
  - apply set_delete_only. intros l Hl. by destruct (Hall l Hl).
  - destruct (Notifier.listeners n) as [|l ls]; [done|].
    destruct (Hall l) as [? _]; [by left|congruence].
Qed.

Lemma destroy_no_listeners (n : Notifier.t Js.Value) :
  Notifier.listeners n = [] →
  Notifier.listeners (Notifier.destroy n) = []
  ∧ Notifier.alive (Notifier.destroy n) = false.
Proof.
  intros Hempty. unfold Notifier.destroy.
  by destruct (Notifier.alive n) eqn:E.
Qed.

(** The closure returned by [context.subscribe], called where its
    callback is the only listener of its instance. *)
Lemma callUnsubscriber_only s a cb r :
  onlyListener cb a r →
  let u := {| of_store := s; of_instance := a; of_callback := cb |} in
  hasListenersAt a (onNotifier a (Notifier.unsubscribe cb) r) = false
  ∧ memory (callUnsubscriber u r) !! id s = None
  ∧ (∀ m, heap (callUnsubscriber u r) !! a = Some m →
          Notifier.alive (notifier m) = false)
  ∧ (∀ b, onlyListener cb b r → onlyListener cb b (callUnsubscriber u r)).
Proof.
  intros Honly u.
  set (r1 := onNotifier a (Notifier.unsubscribe cb) r).
  assert (Hheap1 : heap r1 !! a
                   = touched (Notifier.unsubscribe cb) <$> heap r !! a).
  { subst r1. rewrite onNotifier_lookup. by rewrite decide_True. }
  assert (Hempty : ∀ m, heap r1 !! a = Some m →
                        Notifier.listeners (notifier m) = []).
  { intros m. rewrite Hheap1.
    destruct (heap r !! a) as [m0|] eqn:Hm0; [|done].
    intros [= <-]. cbn. apply unsubscribe_only.
    intros l Hl. by apply (Honly m0 l). }
  assert (Hnone : hasListenersAt a r1 = false).
  { unfold hasListenersAt. destruct (heap r1 !! a) as [m|] eqn:Hm; [|done].
    unfold Notifier.hasListeners. by rewrite (Hempty m). }
  assert (Hcall : callUnsubscriber u r
                  = set_memory (delete (id s) (memory (dispose a r1)))
                               (dispose a r1)).
  { unfold callUnsubscriber. subst u. cbn [of_instance of_callback of_store].
    fold r1. by rewrite Hnone. }
  destruct (dispose_frame a r1) as (_ & _ & Hheap2).
  assert (Hheap3 : ∀ b, heap (callUnsubscriber u r) !! b
                        = if decide (a = b)
                          then touched Notifier.destroy <$> heap r1 !! a
                          else heap r !! b).
  { intros b. rewrite Hcall. cbn [heap set_memory]. rewrite Hheap2.
    case_decide as Hab; [done|]. subst r1.
    rewrite onNotifier_lookup. by rewrite decide_False. }
  split_and!.
  - done.
  - rewrite Hcall. cbn [memory set_memory]. apply lookup_delete_eq.
  - intros m. rewrite Hheap3, decide_True by done.
    destruct (heap r1 !! a) as [m1|] eqn:Hm1; [|done].
    intros [= <-]. cbn. by apply destroy_no_listeners, Hempty.
  - intros b Hb m l. rewrite Hheap3. case_decide as Hab.
    + destruct (heap r1 !! a) as [m1|] eqn:Hm1; [|done].
      intros [= <-]. cbn.
      destruct (destroy_no_listeners (notifier m1) (Hempty m1 eq_refl))
        as [-> _].
      by intros ?%elem_of_nil.
    + apply Hb.
Qed.

Lemma getInstance_only s cb r :
  (∀ a, memory r !! id s = Some a → onlyListener cb a r) →
  onlyListener cb (snd (getInstance s r)) (fst (getInstance s r))
  ∧ (∀ b, onlyListener cb b r → onlyListener cb b (fst (getInstance s r))).
Proof.
  intros Hentry.
  destruct (memory r !! id s) as [a|] eqn:Hlookup.
  - rewrite (getInstance_present s r a Hlookup). cbn [fst snd].
    split; [by apply Hentry|done].
  - rewrite (getInstance_absent s r Hlookup). cbn zeta. cbn [fst snd].
    set (fresh := {| notifier := Notifier.new (read s (env r));
                     unsubscribe := None |}).
    set (r2 := if isMounted r then _ else _).
    assert (Hheap : heap r2 = heap r ++ [fresh])
      by (subst r2; by destruct (isMounted r)).
    assert (Hcases : ∀ b m, heap r2 !! b = Some m →
              heap r !! b = Some m ∨ (b = length (heap r) ∧ m = fresh)).
    { intros b m. rewrite Hheap.
      intros [Hold|[Hge Hnew]]%lookup_app_Some; [by left|right].
      destruct (b - length (heap r)) as [|?] eqn:E; [|done].
      injection Hnew as <-. split; [lia|done]. }
    split.
    + intros m l Hm Hl. destruct (Hcases _ _ Hm) as [Hold|[_ ->]].
      * apply lookup_lt_Some in Hold. lia.
      * by apply elem_of_nil in Hl.
    + intros b Hb m l Hm Hl. destruct (Hcases _ _ Hm) as [Hold|[_ ->]].
      * by apply (Hb m l).
      * by apply elem_of_nil in Hl.
Qed.

Lemma subscribe_only s cb r :
  (∀ a, memory r !! id s = Some a → onlyListener cb a r) →
  snd (context_subscribe context s cb r)
  = {| of_store := s;
       of_instance := of_instance (snd (context_subscribe context s cb r));
       of_callback := cb |}
  ∧ onlyListener cb (of_instance (snd (context_subscribe context s cb r)))
                 (fst (context_subscribe context s cb r))
  ∧ (∀ b, onlyListener cb b r →
          onlyListener cb b (fst (context_subscribe context s cb r)))
  ∧ (∀ a, memory (fst (context_subscribe context s cb r)) !! id s = Some a →
          onlyListener cb a (fst (context_subscribe context s cb r))).
Proof.
  intros Hentry.
  destruct (getInstance_only s cb r Hentry) as (Hnew & Hkeep).
  assert (Hmem : ∀ a, memory (fst (getInstance s r)) !! id s = Some a →
                      a = snd (getInstance s r)).
  { intros a. destruct (memory r !! id s) as [a0|] eqn:Hlookup.
    - rewrite (getInstance_present s r a0 Hlookup). cbn [fst snd].
      rewrite Hlookup. by intros [= <-].
    - rewrite (getInstance_absent s r Hlookup). cbn zeta. cbn [fst snd].
      destruct (isMounted r); cbn [memory set_memory set_heap log].
      + rewrite lookup_insert_eq. by intros [= <-].
      + by rewrite Hlookup. }
  cbn [context_subscribe context].
  destruct (getInstance s r) as [r1 a1] eqn:Hget. cbn [fst snd] in *.
  assert (Hsub : ∀ b, onlyListener cb b r1 →
                      onlyListener cb b
                        (onNotifier a1 (Notifier.subscribe cb) r1)).
  { intros b Hb m l. rewrite onNotifier_lookup. case_decide as Hab.
    - subst b. destruct (heap r1 !! a1) as [m1|] eqn:Hm1; [|done].
      intros [= <-]. cbn. unfold Notifier.subscribe.
      destruct (Notifier.alive (notifier m1)) eqn:Halive; cbn.
      + unfold Notifier.set_add. case_bool_decide.
        * intros Hl. split; [done|]. by destruct (Hb m1 l Hm1 Hl).
        * intros [Hl|Hl%list_elem_of_singleton]%elem_of_app; [|done].
          split; [done|]. by destruct (Hb m1 l Hm1 Hl).
      + rewrite Halive. intros Hl.
        destruct (Hb m1 l Hm1 Hl). congruence.
    - apply Hb. }
  split_and!.
  - done.
  - by apply Hsub.
  - intros b Hb. by apply Hsub, Hkeep.
  - intros a.
    destruct (onNotifier_frame a1 (Notifier.subscribe cb) r1)
      as (_ & -> & _).
    intros ->%Hmem. by apply Hsub.
Qed.

End DuplicateCallback.

Section DuplicateCallbackClaim.
Import StoreAdapter.
Implicit Types (r : Root) (s : StoreAdapter.StoreAdapter)
               (cb l : Notifier.Listener).

Lemma filter_eq_absent l (ls : list Notifier.Listener) :
  l ∉ ls → filter (λ x, x = l) ls = [].
Proof.
  induction ls as [|x ls IH]; [done|].
  rewrite not_elem_of_cons. intros [Hx Hls].
  rewrite filter_cons, decide_False by congruence. by apply IH.
Qed.

Lemma filter_eq_once l (ls : list Notifier.Listener) :
  NoDup ls → l ∈ ls → length (filter (λ x, x = l) ls) = 1.
Proof.
  induction 1 as [|x ls Hx Hnd IH]; [by intros ?%elem_of_nil|].
  rewrite filter_cons. case_decide as Hxl.
  - subst x. intros _. cbn. by rewrite filter_eq_absent.
  - intros [?|Hin]%elem_of_cons; [congruence|]. by apply IH.
Qed.

Lemma callees_of_notify (v : Js.Value) (n : Notifier.t Js.Value) :
  Notifier.callee <$> snd (Notifier.notify v n)
  = if Notifier.alive n then Notifier.listeners n else [].
Proof.
  unfold Notifier.notify. destruct (Notifier.alive n); [|done].
  cbn. rewrite <- list_fmap_compose. apply list_fmap_id.
Qed.

Lemma run_dead_no_listeners (seed : Js.Value)
    (ops : list (Notifier.Op Js.Value)) :
  Notifier.alive (Notifier.run ops (Notifier.new seed)) = false →
  Notifier.listeners (Notifier.run ops (Notifier.new seed)) = [].
Proof.
  assert (Hinv : ∀ ops (n : Notifier.t Js.Value),
    (Notifier.alive n = false → Notifier.listeners n = []) →
    Notifier.alive (Notifier.run ops n) = false →
    Notifier.listeners (Notifier.run ops n) = []).
  { clear ops. induction ops as [|o ops IH]; intros n Hn; [done|].
    rewrite run_cons. apply IH.
    destruct o; cbn;
      unfold Notifier.subscribe, Notifier.unsubscribe, Notifier.notify,
             Notifier.destroy;
      destruct (Notifier.alive n) eqn:E; cbn; rewrite ?E; auto; done. }
  apply Hinv. done.
Qed.

(** C10, as the code has it: a callback subscribed twice to a Notifier
    is registered once, is called once by each [notify] of a live
    Notifier, and is gone after one unsubscribe.  In the registry, when
    the store's instance has no listener but that callback, the first
    of the two unsubscribes already reads [hasListeners()] as false and
    removes the entry; the second reads it as false again and runs the
    eviction branch again, leaving no entry and a destroyed Notifier. *)
Theorem duplicate_callback_registered_once
    (seed : Js.Value) (ops : list (Notifier.Op Js.Value))
    l (v : Js.Value) s cb r :
  let n := Notifier.run ops (Notifier.new seed) in
  let twice := Notifier.subscribe l (Notifier.subscribe l n) in
  (∀ a, memory r !! id s = Some a → onlyListener cb a r) →
  let first := context_subscribe context s cb r in
  let second := context_subscribe context s cb (fst first) in
  let r3 := callUnsubscriber (snd first) (fst second) in
  let r4 := callUnsubscriber (snd second) r3 in
  twice = Notifier.subscribe l n
  ∧ length (filter (λ x, x = l)
              (Notifier.callee <$> snd (Notifier.notify v twice)))
    = (if Notifier.alive n then 1 else 0)
  ∧ (l ∉ Notifier.listeners (Notifier.unsubscribe l twice))
  ∧ hasListenersAt (of_instance (snd first))
      (onNotifier (of_instance (snd first)) (Notifier.unsubscribe cb)
                  (fst second)) = false
  ∧ memory r3 !! id s = None
  ∧ hasListenersAt (of_instance (snd second))
      (onNotifier (of_instance (snd second)) (Notifier.unsubscribe cb) r3)
    = false
  ∧ memory r4 !! id s = None
  ∧ (∀ m, heap r4 !! of_instance (snd second) = Some m →
          Notifier.alive (notifier m) = false).
Proof.
  intros n twice Hentry first second r3 r4.
  assert (Hnd : NoDup (Notifier.listeners n)).
  { subst n. apply run_NoDup. cbn. apply NoDup_nil_2. }
  assert (Htwice : twice = Notifier.subscribe l n).
  { subst twice. unfold Notifier.subscribe.
    destruct (Notifier.alive n) eqn:E; cbn -[Notifier.set_add];
      rewrite ?E; [|done].
    by rewrite set_add_idem. }
  destruct (subscribe_only s cb r Hentry) as (Hu1 & Hq1 & Hkeep1 & Hentry1).
  fold first in Hu1, Hq1, Hkeep1, Hentry1.
  destruct (subscribe_only s cb (fst first) Hentry1)
    as (Hu2 & Hq2 & Hkeep2 & _).
  fold second in Hu2, Hq2, Hkeep2.
  destruct (callUnsubscriber_only s (of_instance (snd first)) cb
              (fst second) (Hkeep2 _ Hq1))
    as (Hfirst & Hgone3 & _ & Hkeep3).
  rewrite <- Hu1 in Hgone3, Hkeep3. fold r3 in Hgone3, Hkeep3.
  destruct (callUnsubscriber_only s (of_instance (snd second)) cb
              r3 (Hkeep3 _ Hq2))
    as (Hsecond & Hgone4 & Hdead4 & _).
  rewrite <- Hu2 in Hgone4, Hdead4. fold r4 in Hgone4, Hdead4.
  split_and!; try done.
  - rewrite Htwice, callees_of_notify.
    unfold Notifier.subscribe.
    destruct (Notifier.alive n) eqn:E; cbn -[Notifier.set_add];
      rewrite ?E; [|done].
    apply filter_eq_once; [by apply set_add_NoDup|apply set_add_elem].
  - rewrite Htwice. unfold Notifier.unsubscribe, Notifier.subscribe.
    destruct (Notifier.alive n) eqn:E;
      cbn -[Notifier.set_add Notifier.set_delete]; rewrite ?E.
    + cbn -[Notifier.set_add Notifier.set_delete].
      apply set_delete_not_elem.
    + subst n. rewrite run_dead_no_listeners by done. apply not_elem_of_nil.
Qed.

Lemma duplicate_callback_registered_once_witness :
  Scenario.secondFindsListeners false = false
  ∧ memory (Scenario.afterFirstUnsubscribe false) !! "Store-0" = None
  ∧ memory (Scenario.afterSecondUnsubscribe false) !! "Store-0" = None.
Proof.
  destruct (duplicate_callback_registered_once
              Js.posZero [] 9 (Js.int 1) Scenario.counter 9
              (Scenario.beforeDuplicate false))
    as (_ & _ & _ & _ & Hgone3 & Hsecond & Hgone4 & _).
  - intros a Ha m l Hm Hl. vm_compute in Ha. injection Ha as <-.
    vm_compute in Hm. injection Hm as <-. cbn in Hl.
    by apply elem_of_nil in Hl.
  - split_and!; [exact Hsecond|exact Hgone3|exact Hgone4].
Defined.

(** C10 as stated fails when another consumer is subscribed: the second
    unsubscribe of the duplicate callback reads [hasListeners()] as true
    and the entry stays. *)
Lemma duplicate_callback_with_bystander :
  Scenario.secondFindsListeners true = true
  ∧ memory (Scenario.afterSecondUnsubscribe true) !! "Store-0" = Some 0
  ∧ (Notifier.alive ∘ notifier)
      <$> heap (Scenario.afterSecondUnsubscribe true) !! 0 = Some true.
Proof. by vm_compute. Qed.

(** When the entry holds an upstream teardown, each of the two
    unsubscribes calls it. *)
Example duplicate_callback_repeats_teardown :
  Scenario.unsubscribeCalls (trace Scenario.duplicateRegistered) = [0; 0].
Proof. by vm_compute. Qed.

(** The root of [src/src/StoreAdapter.tsx] has no retention policy: the
    last unsubscribe always evicts, and the next read seeds anew. *)
Example last_unsubscribe_evicts :
  memory (Scenario.afterFirstUnsubscribe false) !! "Store-0" = None
  ∧ snd (context_read context Scenario.counter
           (set_env (Scenario.counterAt (Js.int 1))
                    (Scenario.afterFirstUnsubscribe false))) = Js.int 1.
Proof. by vm_compute. Qed.

End DuplicateCallbackClaim.

(** * Further properties of the code *)

(** ** The Notifier over sequences of operations *)

Section NotifierSequences.
Context {T : Type}.
Implicit Types (n : Notifier.t T) (l : Notifier.Listener).

Lemma run_app (ops1 ops2 : list (Notifier.Op T)) n :
  Notifier.run (ops1 ++ ops2) n = Notifier.run ops2 (Notifier.run ops1 n).
Proof. apply fold_left_app. Qed.

Lemma run_dead_iff (ops : list (Notifier.Op T)) n :
  Notifier.alive (Notifier.run ops n) = false
  ↔ Notifier.alive n = false ∨ Notifier.Destroy ∈ ops.
Proof.
  revert n. induction ops as [|o ops IH]; intros n.
  - cbn. split; [by left|]. intros [?|Hin]; [done|].
    by apply elem_of_nil in Hin.
  - rewrite run_cons, IH, step_alive, elem_of_cons.
    destruct o; intuition (try discriminate; auto).
Qed.

(** X1: on a live Notifier, subscribing a listener that is not yet
    registered and then calling the returned closure gives back the
    Notifier as it was, and in between [hasListeners()] is true. *)
Theorem subscribe_unsubscribe_round_trip n l :
  Notifier.alive n = true →
  l ∉ Notifier.listeners n →
  Notifier.unsubscribe l (Notifier.subscribe l n) = n
  ∧ Notifier.hasListeners (Notifier.subscribe l n) = true
  ∧ Notifier.listeners (Notifier.subscribe l n) = Notifier.listeners n ++ [l].
Proof.
  intros Hlive Hfresh.
  unfold Notifier.unsubscribe, Notifier.subscribe, Notifier.hasListeners.
  rewrite Hlive. cbn [Notifier.alive Notifier.listeners Notifier.value].
  rewrite ?Hlive. unfold Notifier.set_add.
  rewrite bool_decide_eq_false_2 by done.
  split_and!.
  - unfold Notifier.set_delete. rewrite filter_app, filter_cons.
    rewrite decide_False by (intros Hne; by apply Hne). cbn.
    rewrite app_nil_r.
    fold (Notifier.set_delete l (Notifier.listeners n)).
    rewrite set_delete_absent by done. destruct n; cbn in *. by subst.
  - rewrite length_app, Nat.add_comm. done.
  - done.
Qed.

(** X2: whatever operations a Notifier has received since it was
    constructed, its listener set holds no callback twice, it is dead
    exactly when [destroy] was among them, and a dead Notifier holds no
    listener, so [hasListeners()] answers false on it. *)
Theorem notifier_invariants (seed : T) (ops : list (Notifier.Op T)) :
  let n := Notifier.run ops (Notifier.new seed) in
  NoDup (Notifier.listeners n)
  ∧ (Notifier.alive n = false ↔ Notifier.Destroy ∈ ops)
  ∧ (Notifier.alive n = false → Notifier.listeners n = [])
  ∧ (Notifier.alive n = false → Notifier.hasListeners n = false)
  ∧ (∀ more, Notifier.alive n = false →
             Notifier.run more n = n).
Proof.
  intros n.
  assert (Hdead : Notifier.alive n = false → Notifier.listeners n = []).
  { assert (Hinv : ∀ ops (m : Notifier.t T),
      (Notifier.alive m = false → Notifier.listeners m = []) →
      Notifier.alive (Notifier.run ops m) = false →
      Notifier.listeners (Notifier.run ops m) = []).
    { clear. induction ops as [|o ops IH]; intros m Hm; [done|].
      rewrite run_cons. apply IH.
      destruct o; cbn;
        unfold Notifier.subscribe, Notifier.unsubscribe, Notifier.notify,
               Notifier.destroy;
        destruct (Notifier.alive m) eqn:E; cbn; rewrite ?E; auto; done. }
    apply Hinv. done. }
  split_and!.
  - apply run_NoDup. cbn. apply NoDup_nil_2.
  - subst n. rewrite run_dead_iff. cbn. split; [by intros [?|?]|by right].
  - done.
  - intros Hd. unfold Notifier.hasListeners. by rewrite Hdead.
  - intros more Hd. induction more as [|o more IH]; [done|].
    rewrite run_cons.
    assert (Hstep : Notifier.step n o = n).
    { destruct o; cbn;
        unfold Notifier.subscribe, Notifier.unsubscribe, Notifier.notify,
               Notifier.destroy; by rewrite ?Hd. }
    by rewrite Hstep.
Qed.

End NotifierSequences.

Lemma subscribe_unsubscribe_round_trip_witness :
  Notifier.unsubscribe 9
    (Notifier.subscribe 9 (Notifier.mk true [3; 1] (Js.int 4)))
  = Notifier.mk true [3; 1] (Js.int 4).
Proof.
  destruct (subscribe_unsubscribe_round_trip
              (Notifier.mk true [3; 1] (Js.int 4)) 9) as (Hback & _).
  - reflexivity.
  - intros Hin. repeat (apply elem_of_cons in Hin as [Hin|Hin]; [lia|]).
    by apply elem_of_nil in Hin.
  - exact Hback.
Defined.

Lemma notifier_invariants_witness :
  Notifier.hasListeners
    (Notifier.run [Notifier.Subscribe 1; Notifier.Destroy;
                   Notifier.Subscribe 2]
                  (Notifier.new Js.posZero)) = false.
Proof.
  destruct (notifier_invariants Js.posZero
              [Notifier.Subscribe 1; Notifier.Destroy; Notifier.Subscribe 2])
    as (_ & _ & _ & Hnone & _).
  apply Hnone. reflexivity.
Defined.

(** ** Descriptors, the hook and the root component *)

Section DescriptorsAndHook.
Import StoreAdapter.
Implicit Types (r : Root) (s : StoreAdapter.StoreAdapter).

(** X3: [createStoreAdapter] keeps an [id] it is given and otherwise
    names the descriptor after the counter; every call advances the
    counter by one, so two descriptors created without an [id] never share
    one. *)
Theorem createStoreAdapter_ids (o1 o2 : StoreAdapterOptions) (i j : nat) :
  snd (createStoreAdapter o1 i) = i + 1
  ∧ (∀ given, options_id o1 = Some given →
              id (fst (createStoreAdapter o1 i)) = given)
  ∧ (options_id o1 = None → options_id o2 = None →
     (i ≠ j →
      id (fst (createStoreAdapter o1 i)) ≠ id (fst (createStoreAdapter o2 j)))
     ∧ id (fst (createStoreAdapter o1 i))
       ≠ id (fst (createStoreAdapter o2 (snd (createStoreAdapter o1 i))))).
Proof.
  assert (Hne : ∀ a b : nat, a ≠ b →
            "Store-" +:+ pretty a ≠ "Store-" +:+ pretty b).
  { intros a b Hab Heq. cbn [String.append] in Heq. injection Heq as Heq.
    apply Hab. by apply (inj pretty). }
  unfold createStoreAdapter, getIndex. cbn [fst snd id].
  split_and!.
  - done.
  - intros given Hgiven. by rewrite Hgiven.
  - intros H1 H2. rewrite H1, H2. cbn [default]. split.
    + apply Hne.
    + apply Hne. lia.
Qed.

Lemma createStoreAdapter_ids_witness :
  id (fst (createStoreAdapter Scenario.counterOptions 0))
  ≠ id (fst (createStoreAdapter Scenario.counterOptions
               (snd (createStoreAdapter Scenario.counterOptions 0)))).
Proof.
  destruct (createStoreAdapter_ids
              Scenario.counterOptions Scenario.counterOptions 0 0)
    as (_ & _ & Hdistinct).
  destruct Hdistinct as (_ & Hnext); [reflexivity|reflexivity|].
  exact Hnext.
Defined.

(** X4: when the registry already holds an entry under the store's id,
    a render of [useStoreAdapter] returns [getSnapshot] of the value the
    entry's Notifier holds, whatever the store itself holds by now, and
    leaves the root as it was: the store is not read. *)
Theorem render_shows_safe_value
    s (options : option UseStoreAdapterOptions) r a m :
  memory r !! id s = Some a →
  heap r !! a = Some m →
  ∃ rendered,
    useStoreAdapter (Some {| current := Some context |}) s options r
    = (r, Return rendered)
    ∧ state rendered
      = default identity (options ≫= getSnapshot)
                (Notifier.read (notifier m))
    ∧ subscription_shouldUpdate (subscription rendered)
      = default defaultUpdate (options ≫= use_shouldUpdate).
Proof.
  intros Hentry Hinstance.
  unfold useStoreAdapter, useSubscription.
  cbn [useStoreAdapterContext useStoreAdapterContextRef current
       subscription_read context_read context].
  rewrite (getInstance_present s r a Hentry), Hinstance.
  eexists. split; [reflexivity|]. split; reflexivity.
Qed.

Lemma render_shows_safe_value_witness :
  ∃ rendered,
    useStoreAdapter Scenario.provided Scenario.counter None
                    Scenario.dispatchedAfterMount
    = (Scenario.dispatchedAfterMount, Return rendered)
    ∧ state rendered = Js.posZero.
Proof.
  destruct (render_shows_safe_value Scenario.counter None
              Scenario.dispatchedAfterMount 0
              {| notifier := Notifier.mk true [1] Js.posZero;
                 unsubscribe := Some 0 |})
    as (rendered & Hrender & Hstate & _);
    [reflexivity|reflexivity|].
  exists rendered. split; [exact Hrender|exact Hstate].
Defined.

(** X5: a consumer rendered under [StoreAdapterRoot], with no root above
    it, does not throw: the root's core has filled the context before the
    children render, and the first render shows [getSnapshot] of what the
    store holds.  A root under an existing provider hands that provider's
    ref to its children, and the core rendered outside any provider
    throws. *)
Theorem consumer_under_root
    s (options : option UseStoreAdapterOptions) (e : Env) :
  Components.StoreAdapterRoot None
  = Return (Some {| current := Some context |})
  ∧ (∀ ref, Components.StoreAdapterRoot (Some ref) = Return (Some ref))
  ∧ (∃ rendered r',
       useStoreAdapter (Some {| current := Some context |}) s options
                       (mount e)
       = (r', Return rendered)
       ∧ state rendered
         = default identity (options ≫= getSnapshot) (read s e)
       ∧ trace r' = [StoreRead (id s) (read s e)])
  ∧ Components.StoreAdapterCore None
    = Throw "Attempt to access missing StoreAdapterContext reference.".
Proof.
  split_and!; try done.
  unfold useStoreAdapter, useSubscription.
  cbn [useStoreAdapterContext useStoreAdapterContextRef current
       subscription_read context_read context].
  rewrite (getInstance_absent s (mount e)) by apply lookup_empty.
  cbn [isMounted mount heap set_memory set_heap log length env trace app].
  cbn [lookup list_lookup].
  eexists _, _. split; [reflexivity|]. split; reflexivity.
Qed.

End DescriptorsAndHook.

(** ** Values change in the update effect only *)

Section SafeValues.
Import StoreAdapter.
Implicit Types (r : Root) (s : StoreAdapter.StoreAdapter) (a : Address).

Lemma keepsValues_refl r : Host.keepsValues r r.
Proof. by intros a v. Qed.

Lemma keepsValues_trans r1 r2 r3 :
  Host.keepsValues r1 r2 → Host.keepsValues r2 r3 → Host.keepsValues r1 r3.
Proof. intros H12 H23 a v Hv. by apply H23, H12. Qed.

Lemma keepsValues_heap r r' : heap r' = heap r → Host.keepsValues r r'.
Proof. intros Hheap a v. unfold Host.safeValue. by rewrite Hheap. Qed.

Lemma keepsValues_onNotifier a f r :
  (∀ n, Notifier.read (f n) = Notifier.read n) →
  Host.keepsValues r (onNotifier a f r).
Proof.
  intros Hf b v. unfold Host.safeValue. rewrite onNotifier_lookup.
  case_decide as Hab; [subst b|done].
  destruct (heap r !! a) as [m|]; [|done]. cbn. by rewrite Hf.
Qed.

Lemma read_subscribe l (n : Notifier.t Js.Value) :
  Notifier.read (Notifier.subscribe l n) = Notifier.read n.
Proof. unfold Notifier.subscribe. by destruct (Notifier.alive n). Qed.

Lemma read_unsubscribe l (n : Notifier.t Js.Value) :
  Notifier.read (Notifier.unsubscribe l n) = Notifier.read n.
Proof. unfold Notifier.unsubscribe. by destruct (Notifier.alive n). Qed.

Lemma read_destroy (n : Notifier.t Js.Value) :
  Notifier.read (Notifier.destroy n) = Notifier.read n.
Proof. unfold Notifier.destroy. by destruct (Notifier.alive n). Qed.

Lemma keepsValues_getInstance s r :
  Host.keepsValues r (fst (getInstance s r)).
Proof.
  destruct (memory r !! id s) as [a|] eqn:Hlookup.
  - rewrite (getInstance_present s r a Hlookup). apply keepsValues_refl.
  - rewrite (getInstance_absent s r Hlookup). cbn zeta. cbn [fst].
    intros b v. unfold Host.safeValue.
    replace (heap (if isMounted r then _ else _))
      with (heap r ++ [{| notifier := Notifier.new (read s (env r));
                          unsubscribe := None |}])
      by by destruct (isMounted r).
    destruct (heap r !! b) as [m|] eqn:Hb; [|done].
    by rewrite (lookup_app_l_Some _ _ _ _ Hb).
Qed.

Lemma keepsValues_dispose a r : Host.keepsValues r (dispose a r).
Proof.
  intros b v. unfold Host.safeValue.
  destruct (dispose_frame a r) as (_ & _ & Hheap). rewrite Hheap.
  case_decide as Hab; [subst b|done].
  destruct (heap r !! a) as [m|]; [|done]. cbn. by rewrite read_destroy.
Qed.

Lemma keepsValues_forEach {A : Type} (f : A → Root → Root) (xs : list A) r :
  (∀ x r0, Host.keepsValues r0 (f x r0)) →
  Host.keepsValues r (forEach f xs r).
Proof.
  intros Hf. revert r. induction xs as [|x xs IH]; intros r.
  - apply keepsValues_refl.
  - cbn. eapply keepsValues_trans; [apply (Hf x)|apply IH].
Qed.

Lemma keepsValues_registerStore s r : Host.keepsValues r (registerStore s r).
Proof.
  unfold registerStore. destruct (memory r !! id s) as [a|];
    [|apply keepsValues_refl].
  set (c := {| store := s; instance := a |}).
  set (r1 := log _ _).
  destruct (checkForUpdates_frame c r1) as (_ & _ & Hheap & _).
  assert (Hr1 : heap r1 = heap r) by done.
  destruct (subscribe s); [|apply keepsValues_heap; congruence].
  destruct (heap (checkForUpdates c r1) !! a) as [m|] eqn:Hm;
    [|apply keepsValues_heap; congruence].
  intros b v. unfold Host.safeValue. cbn [heap set_heap].
  destruct (decide (a = b)) as [<-|Hab].
  - rewrite list_lookup_insert_eq by by eapply lookup_lt_Some.
    rewrite <- Hr1, <- Hheap, Hm. done.
  - rewrite list_lookup_insert_ne by done. by rewrite Hheap, Hr1.
Qed.

Lemma keepsValues_act (action : Host.Action) r :
  Host.keepsValues r (Host.act r action).
Proof.
  destruct action as [s|s cb|u|s|h e| | |]; cbn [Host.act].
  - cbn [context_read context].
    pose proof (keepsValues_getInstance s r) as Hget.
    by destruct (getInstance s r) as [r1 a].
  - cbn [context_subscribe context].
    pose proof (keepsValues_getInstance s r) as Hget.
    destruct (getInstance s r) as [r1 a]. cbn [fst] in *.
    eapply keepsValues_trans; [exact Hget|].
    apply keepsValues_onNotifier, read_subscribe.
  - unfold callUnsubscriber.
    set (r1 := onNotifier _ _ r).
    assert (H1 : Host.keepsValues r r1)
      by apply keepsValues_onNotifier, read_unsubscribe.
    destruct (negb _); [|done].
    eapply keepsValues_trans; [exact H1|].
    eapply keepsValues_trans; [apply keepsValues_dispose|].
    by apply keepsValues_heap.
  - cbn. destruct (isMounted r); by apply keepsValues_heap.
  - unfold storeNotifies. destruct (upstream r !! h) as [c|].
    + destruct (checkForUpdates_frame c (set_env e r)) as (_ & _ & Hheap & _).
      by apply keepsValues_heap.
    + by apply keepsValues_heap.
  - unfold fireTimer. destruct (timers r) as [|u rest]; [apply keepsValues_refl|].
    unfold timerCallback. cbn. destruct (isMounted r); by apply keepsValues_heap.
  - unfold flushRegistrations. destruct (Nat.ltb _ _); [|apply keepsValues_refl].
    eapply keepsValues_trans;
      [|apply keepsValues_forEach, keepsValues_registerStore].
    by apply keepsValues_heap.
  - unfold unmount.
    eapply keepsValues_trans; [|by apply keepsValues_heap].
    eapply keepsValues_trans;
      [|apply keepsValues_forEach, keepsValues_dispose].
    by apply keepsValues_heap.
Qed.

(** X6: reading, subscribing, unsubscribing, registering, a store
    announcing a change, a macrotask, the registration effect and the
    unmount, in any number and order, leave the value of every existing
    Notifier as it was.  Only the update effect moves a value. *)
Theorem values_change_only_in_update_effect
    (actions : list Host.Action) r a (v : Js.Value) :
  Host.safeValue a r = Some v →
  Host.safeValue a (Host.acts actions r) = Some v.
Proof.
  revert r. induction actions as [|action actions IH]; intros r Hv; [done|].
  cbn. apply IH. by apply keepsValues_act.
Qed.

Lemma values_change_only_in_update_effect_witness :
  Host.safeValue 0
    (Host.acts [Host.StoreNotifies 0 (Scenario.counterAt (Js.int 2));
                Host.TimerFires; Host.Reads Scenario.counter;
                Host.Subscribes Scenario.counter 5; Host.Unmounts]
               Scenario.dispatchedAfterMount) = Some Js.posZero.
Proof.
  apply (values_change_only_in_update_effect _ Scenario.dispatchedAfterMount).
  reflexivity.
Defined.

(** X7: a mounted root, a store that calls [checkForUpdates] after moving
    to a new external state, no macrotask or update pending.  When
    [shouldUpdate] answers false only the store was read.  When it answers
    true, the Notifier keeps its value until the macrotask has fired and
    the update effect has run; then it holds the new value and every
    listener has been called with it once, in order, and both queues are
    empty again. *)
Theorem store_change_reaches_listeners r h c m (e : Env) :
  isMounted r = true →
  upstream r !! h = Some c →
  heap r !! instance c = Some m →
  Notifier.alive (notifier m) = true →
  timers r = [] →
  pendingUpdates r = [] →
  let next := read (store c) e in
  let r1 := storeNotifies h e r in
  let r3 := flushUpdates (fireTimer r1) in
  (shouldUpdate (store c) (Notifier.read (notifier m)) next = false →
     r1 = log [StoreRead (id (store c)) next] (set_env e r) ∧ r3 = r1)
  ∧ (shouldUpdate (store c) (Notifier.read (notifier m)) next = true →
     heap r1 = heap r
     ∧ heap (fireTimer r1) = heap r
     ∧ heap r3
       = <[instance c := {| notifier :=
                              Notifier.mk true
                                (Notifier.listeners (notifier m)) next;
                            unsubscribe := unsubscribe m |}]> (heap r)
     ∧ trace r3
       = trace r
           ++ [StoreRead (id (store c)) next; Notified (instance c) next]
           ++ map (λ l, Listened l next) (Notifier.listeners (notifier m))
     ∧ timers r3 = [] ∧ pendingUpdates r3 = []).
Proof.
  intros Hm Hup Hheap Hlive Htimers Hpending next r1 r3.
  destruct r as [mounted mem hp ps pu ts up ev tr]. cbn in Hm, Hup, Hheap,
    Htimers, Hpending. subst mounted ts pu.
  subst r3 r1. unfold storeNotifies. cbn [upstream set_env]. rewrite Hup.
  unfold checkForUpdates. cbn -[lookup insert]. rewrite Hheap.
  fold next. split.
  - intros ->. split; [done|].
    by unfold fireTimer, flushUpdates.
  - intros ->. unfold batchUpdates, fireTimer, timerCallback, flushUpdates.
    cbn -[lookup insert]. unfold runUpdate. cbn -[lookup insert].
    rewrite Hheap. unfold Notifier.notify. rewrite Hlive.
    cbn -[lookup insert].
    split_and!; try done.
    rewrite map_map. cbn [Notifier.callee Notifier.argument].
    by rewrite <- !app_assoc.
Qed.

Lemma store_change_reaches_listeners_witness :
  heap (flushUpdates
          (fireTimer
             (storeNotifies 0 (Scenario.counterAt (Js.int 1))
                (flushRegistrations
                   (Scenario.consume 1
                      (mount (Scenario.counterAt Js.posZero)))))))
  = [ {| notifier := Notifier.mk true [1] (Js.int 1);
         unsubscribe := Some 0 |} ].
Proof.
  destruct (store_change_reaches_listeners
              (flushRegistrations
                 (Scenario.consume 1 (mount (Scenario.counterAt Js.posZero))))
              0 {| store := Scenario.counter; instance := 0 |}
              {| notifier := Notifier.mk true [1] Js.posZero;
                 unsubscribe := Some 0 |}
              (Scenario.counterAt (Js.int 1)))
    as (_ & Hchanged);
    [reflexivity|reflexivity|reflexivity|reflexivity|reflexivity
    |reflexivity|].
  destruct Hchanged as (_ & _ & Hheap & _); [reflexivity|].
  exact Hheap.
Defined.

End SafeValues.

(** ** The unmount of the root *)

Section Unmount.
Import StoreAdapter.
Implicit Types (r : Root) (s : StoreAdapter.StoreAdapter) (a b : Address).

Lemma touched_destroy_idem (m : StoreAdapterMemory) :
  touched Notifier.destroy (touched Notifier.destroy m)
  = touched Notifier.destroy m.
Proof.
  unfold touched. cbn. f_equal. unfold Notifier.destroy.
  by destruct (Notifier.alive (notifier m)) eqn:E; cbn; rewrite ?E.
Qed.

Lemma dispose_trace a r :
  trace (dispose a r)
  = trace r ++ match heap r !! a with
               | Some m => match unsubscribe m with
                           | Some h => [StoreUnsubscribe h]
                           | None => []
                           end
               | None => []
               end.
Proof.
  unfold dispose. destruct (heap r !! a) as [m|]; [|by rewrite app_nil_r].
  destruct (unsubscribe m) as [h|].
  - by destruct (onNotifier_frame a Notifier.destroy
                   (log [StoreUnsubscribe h] r)) as (_ & _ & _ & ->).
  - destruct (onNotifier_frame a Notifier.destroy r) as (_ & _ & _ & ->).
    by rewrite app_nil_r.
Qed.

Lemma forEach_dispose_lookup (addresses : list Address) r b :
  heap (forEach dispose addresses r) !! b
  = if decide (b ∈ addresses)
    then touched Notifier.destroy <$> heap r !! b
    else heap r !! b.
Proof.
  revert r. induction addresses as [|a addresses IH]; intros r.
  - cbn. by rewrite decide_False by apply not_elem_of_nil.
  - change (forEach dispose (a :: addresses) r)
      with (forEach dispose addresses (dispose a r)).
    rewrite IH. destruct (dispose_frame a r) as (_ & _ & ->).
    destruct (decide (b ∈ addresses)) as [Hin|Hout].
    + rewrite (decide_True (P := b ∈ a :: addresses)) by by right.
      case_decide as Hab; [subst b|done].
      destruct (heap r !! a) as [m|]; [|done]. cbn.
      by rewrite touched_destroy_idem.
    + case_decide as Hab.
      * subst b. by rewrite (decide_True (P := a ∈ a :: addresses)) by by left.
      * rewrite (decide_False (P := b ∈ a :: addresses)); [done|].
        intros [?|?]%elem_of_cons; [congruence|done].
Qed.

Lemma forEach_dispose_trace_mono (addresses : list Address) r (ev : Event) :
  ev ∈ trace r → ev ∈ trace (forEach dispose addresses r).
Proof.
  revert r. induction addresses as [|a addresses IH]; intros r Hin; [done|].
  apply (IH (dispose a r)). rewrite dispose_trace.
  apply elem_of_app. by left.
Qed.

Lemma forEach_dispose_teardown (addresses : list Address) r a m h :
  a ∈ addresses → heap r !! a = Some m → unsubscribe m = Some h →
  StoreUnsubscribe h ∈ trace (forEach dispose addresses r).
Proof.
  revert r m. induction addresses as [|x addresses IH]; intros r m Hin Hm Hh.
  - by apply elem_of_nil in Hin.
  - change (forEach dispose (x :: addresses) r)
      with (forEach dispose addresses (dispose x r)).
    destruct (decide (x = a)) as [->|Hxa].
    + apply forEach_dispose_trace_mono. rewrite dispose_trace, Hm, Hh.
      apply elem_of_app. right. by left.
    + apply elem_of_cons in Hin as [?|Hin]; [congruence|].
      apply (IH _ m); [done| |done].
      destruct (dispose_frame x r) as (_ & _ & ->).
      by rewrite decide_False.
Qed.

Lemma registered_addresses r a :
  a ∈ (snd <$> map_to_list (memory r)) ↔ ∃ i, memory r !! i = Some a.
Proof.
  rewrite list_elem_of_fmap. split.
  - intros [[i a'] [-> Hin%elem_of_map_to_list]]. by exists i.
  - intros [i Hi]. exists (i, a). split; [done|].
    by apply elem_of_map_to_list.
Qed.

(** X8: the unmount of the root lowers the flag, empties the registry
    and, for every entry the registry held, destroys the Notifier (which
    keeps its last value) and calls the upstream teardown the entry
    recorded.  An instance no entry refers to is left as it is. *)
Theorem unmount_destroys_registry r :
  isMounted (unmount r) = false
  ∧ memory (unmount r) = ∅
  ∧ (∀ i a m, memory r !! i = Some a → heap r !! a = Some m →
       heap (unmount r) !! a = Some (touched Notifier.destroy m)
       ∧ Notifier.alive (notifier (touched Notifier.destroy m)) = false
       ∧ Notifier.read (notifier (touched Notifier.destroy m))
         = Notifier.read (notifier m)
       ∧ (∀ h, unsubscribe m = Some h →
               StoreUnsubscribe h ∈ trace (unmount r)))
  ∧ (∀ a, (∀ i, memory r !! i ≠ Some a) →
          heap (unmount r) !! a = heap r !! a).
Proof.
  split_and!.
  - apply unmount_isMounted.
  - done.
  - intros i a m Hi Hm.
    assert (Hin : a ∈ (snd <$> map_to_list (memory r)))
      by (apply registered_addresses; by exists i).
    unfold unmount. cbn [heap trace set_memory memory set_isMounted].
    split_and!.
    + rewrite forEach_dispose_lookup, decide_True by done.
      cbn [heap set_isMounted]. by rewrite Hm.
    + cbn. unfold Notifier.destroy.
      by destruct (Notifier.alive (notifier m)) eqn:E.
    + cbn. unfold Notifier.destroy.
      by destruct (Notifier.alive (notifier m)).
    + intros h Hh. by apply (forEach_dispose_teardown _ _ a m h).
  - intros a Hnone. unfold unmount.
    cbn [heap trace set_memory memory set_isMounted].
    rewrite forEach_dispose_lookup, decide_False; [done|].
    intros [i Hi]%registered_addresses. by apply (Hnone i).
Qed.

Lemma unmount_destroys_registry_witness :
  heap (unmount Scenario.twoConsumers) !! 0
  = Some {| notifier := Notifier.mk false [] Js.posZero;
            unsubscribe := Some 1 |}
  ∧ StoreUnsubscribe 1 ∈ trace (unmount Scenario.twoConsumers).
Proof.
  destruct (unmount_destroys_registry Scenario.twoConsumers)
    as (_ & _ & Hentries & _).
  destruct (Hentries "Store-0" 0
              {| notifier := Notifier.mk true [1; 2] Js.posZero;
                 unsubscribe := Some 1 |})
    as (Hheap & _ & _ & Htear); [reflexivity|reflexivity|].
  split; [exact Hheap|]. apply Htear. reflexivity.
Defined.

Lemma subscribeCalls_snoc_other i (tr : list Event) (ev : Event) :
  (∀ j h, ev ≠ StoreSubscribe j h) →
  Scenario.subscribeCalls i (tr ++ [ev]) = Scenario.subscribeCalls i tr.
Proof.
  intros Hother. rewrite subscribeCalls_app. cbn.
  destruct ev; try by rewrite app_nil_r. by destruct (Hother i0 h).
Qed.

Lemma inert_act (action : Host.Action) r :
  isMounted r = false → memory r = ∅ →
  isMounted (Host.act r action) = false
  ∧ memory (Host.act r action) = ∅
  ∧ ∀ i, Scenario.subscribeCalls i (trace (Host.act r action))
         = Scenario.subscribeCalls i (trace r).
Proof.
  intros Hm Hmem.
  assert (Hget : ∀ s, getInstance s r
            = (set_heap (heap r ++ [{| notifier := Notifier.new (read s (env r));
                                       unsubscribe := None |}])
                 (log [StoreRead (id s) (read s (env r))] r),
               length (heap r))).
  { intros s. rewrite getInstance_absent by (rewrite Hmem; apply lookup_empty).
    cbn zeta. by rewrite Hm. }
  destruct action as [s|s cb|u|s|h e| | |]; cbn [Host.act].
  - cbn [context_read context]. rewrite Hget. cbn [fst isMounted memory
      set_heap log trace].
    split_and!; try done. intros i. by apply subscribeCalls_snoc_other.
  - cbn [context_subscribe context]. rewrite Hget. cbn [fst].
    match goal with
    | |- context [onNotifier ?a ?f ?x] =>
        destruct (onNotifier_frame a f x) as (-> & -> & _ & ->)
    end.
    cbn [isMounted memory set_heap log trace].
    split_and!; try done. intros i. by apply subscribeCalls_snoc_other.
  - unfold callUnsubscriber.
    set (r1 := onNotifier _ _ r).
    destruct (onNotifier_frame (of_instance u)
                (Notifier.unsubscribe (of_callback u)) r)
      as (F1 & F2 & _ & F4). fold r1 in F1, F2, F4.
    destruct (negb _).
    + destruct (dispose_frame (of_instance u) r1) as (D1 & D2 & _).
      cbn [isMounted memory trace set_memory].
      rewrite D1, D2, F1, F2, Hmem, dispose_trace, F4.
      split_and!; [done|apply delete_empty|].
      intros i. rewrite subscribeCalls_app.
      destruct (heap r1 !! of_instance u) as [m|]; [|by rewrite app_nil_r].
      destruct (unsubscribe m); cbn; by rewrite app_nil_r.
    + by rewrite F1, F2, F4.
  - cbn [register context]. by rewrite Hm.
  - unfold storeNotifies. destruct (upstream r !! h) as [c|]; [|done].
    unfold checkForUpdates. cbn [isMounted set_env]. by rewrite Hm.
  - unfold fireTimer. destruct (timers r) as [|u rest]; [done|].
    unfold timerCallback. cbn [isMounted set_timers]. by rewrite Hm.
  - unfold flushRegistrations. destruct (Nat.ltb _ _); [|done].
    assert (Hloop : ∀ batch r0, memory r0 = ∅ →
                      forEach registerStore batch r0 = r0).
    { induction batch as [|s batch IH]; intros r0 H0; [done|].
      cbn. unfold registerStore at 2. rewrite H0, lookup_empty.
      by apply IH. }
    by rewrite Hloop.
  - unfold unmount. cbn [memory set_isMounted]. rewrite Hmem, map_to_list_empty.
    done.
Qed.

(** X9: once the root has unmounted, nothing the host or a store does
    brings it back: after any reads, subscriptions, unsubscriptions,
    registrations, store notifications, macrotasks and effects the flag is
    still down, the registry is still empty, no store's [subscribe] has
    been called, and the update effect calls no thunk. *)
Theorem unmounted_root_is_inert (actions : list Host.Action) r :
  let r' := Host.acts actions (unmount r) in
  isMounted r' = false
  ∧ memory r' = ∅
  ∧ (∀ i, Scenario.subscribeCalls i (trace r')
          = Scenario.subscribeCalls i (trace (unmount r)))
  ∧ trace (flushUpdates r') = trace r'.
Proof.
  assert (Hacts : ∀ actions r0,
    isMounted r0 = false → memory r0 = ∅ →
    isMounted (Host.acts actions r0) = false
    ∧ memory (Host.acts actions r0) = ∅
    ∧ ∀ i, Scenario.subscribeCalls i (trace (Host.acts actions r0))
           = Scenario.subscribeCalls i (trace r0)).
  { clear. induction actions as [|action actions IH]; intros r0 Hm Hmem.
    - done.
    - destruct (inert_act action r0 Hm Hmem) as (H1 & H2 & H3).
      destruct (IH _ H1 H2) as (I1 & I2 & I3).
      cbn. split_and!; try done. intros i. by rewrite I3, H3. }
  intros r'.
  destruct (Hacts actions (unmount r)) as (H1 & H2 & H3).
  { apply unmount_isMounted. }
  { done. }
  fold r' in H1, H2, H3. split_and!; try done.
  unfold flushUpdates. destruct (Nat.ltb _ _); [|done].
  destruct (updates_loop (pendingUpdates r') (set_pendingUpdates [] r'))
    as (_ & _ & _ & Hsame).
  cbn zeta in Hsame. by rewrite Hsame.
Qed.

(** X10: the registration effect passes over a queued store that has no
    instance in the registry.  When none of the queued stores has one,
    as after their consumers have gone, the effect only empties the
    queue: no store is read or subscribed to. *)
Theorem registration_skips_stores_without_instance r :
  Forall (λ s, memory r !! id s = None) (pendingStores r) →
  flushRegistrations r = set_pendingStores [] r.
Proof.
  intros Hnone. unfold flushRegistrations.
  destruct (pendingStores r) as [|s batch] eqn:Hbatch.
  - destruct r; cbn in *. by subst.
  - cbn [length Nat.ltb Nat.leb].
    assert (Hloop : ∀ batch r0,
              Forall (λ s, memory r0 !! id s = None) batch →
              forEach registerStore batch r0 = r0).
    { clear. induction batch as [|s batch IH]; intros r0 Hall; [done|].
      apply Forall_cons in Hall as [Hs Hall].
      cbn. unfold registerStore at 2. rewrite Hs. by apply IH. }
    by apply Hloop.
Qed.

Lemma registration_skips_stores_without_instance_witness :
  flushRegistrations Cases.goneBeforeRegistration
  = set_pendingStores [] Cases.goneBeforeRegistration.
Proof.
  apply registration_skips_stores_without_instance.
  repeat constructor.
Defined.

End Unmount.

(** ** The life of a store's entry under the scoped-model root *)

Section ScopedLifecycle.
Import ScopedStoreAdapter.
Implicit Types (r : Root) (s : ScopedStoreAdapter.StoreAdapter)
               (a : StoreAdapter.Address).

Lemma set_delete_head (c : Notifier.Listener) (ls : list Notifier.Listener) :
  c ∉ ls → Notifier.set_delete c (c :: ls) = ls.
Proof.
  intros Hc. unfold Notifier.set_delete.
  rewrite filter_cons, decide_False by (intros Hne; by apply Hne).
  by apply set_delete_absent.
Qed.

Lemma scoped_unsubscribeCalls_app (t1 t2 : list Event) :
  ScopedHost.unsubscribeCalls (t1 ++ t2)
  = ScopedHost.unsubscribeCalls t1 ++ ScopedHost.unsubscribeCalls t2.
Proof. apply omap_app. Qed.

Lemma scoped_subscribeCalls_app i (t1 t2 : list Event) :
  Scenario.scopedSubscribeCalls i (t1 ++ t2)
  = Scenario.scopedSubscribeCalls i t1 ++ Scenario.scopedSubscribeCalls i t2.
Proof. apply omap_app. Qed.

Lemma scoped_onNotifier_present a f r m :
  heap r !! a = Some m →
  onNotifier a f r = set_heap (<[a := StoreAdapter.touched f m]> (heap r)) r.
Proof. intros Hm. unfold onNotifier. by rewrite Hm. Qed.

Lemma scoped_checkForUpdates_trace (c : Check) r :
  upstream (checkForUpdates c r) = upstream r
  ∧ ScopedHost.unsubscribeCalls (trace (checkForUpdates c r))
    = ScopedHost.unsubscribeCalls (trace r).
Proof.
  unfold checkForUpdates. destruct (isMounted r); [|done]. cbn.
  destruct (heap r !! instance c) as [m|]; cbn;
    [destruct (shouldUpdate _ _ _); cbn|];
    (split; [done|]);
    unfold ScopedHost.unsubscribeCalls; rewrite omap_app; cbn;
    by rewrite app_nil_r.
Qed.

(** The entry of [s]: a live Notifier at [a] with the listeners [ls], the
    value [v] and the teardown [t]. *)
Lemma scoped_subscribe_present s (c : Notifier.Listener) r a ls v t :
  memory r !! id s = Some a →
  heap r !! a = Some {| StoreAdapter.notifier := Notifier.mk true ls v;
                        StoreAdapter.unsubscribe := t |} →
  c ∉ ls →
  let r' := fst (context_subscribe context s c r) in
  snd (context_subscribe context s c r)
  = {| of_store := s; of_instance := a; of_callback := c |}
  ∧ heap r' !! a
    = Some {| StoreAdapter.notifier := Notifier.mk true (ls ++ [c]) v;
              StoreAdapter.unsubscribe := t |}
  ∧ isMounted r' = isMounted r ∧ memory r' = memory r
  ∧ registered r' = registered r ∧ pendingStores r' = pendingStores r
  ∧ upstream r' = upstream r ∧ env r' = env r ∧ trace r' = trace r
  ∧ length (heap r') = length (heap r).
Proof.
  intros Hentry Hm Hc r'. subst r'. cbn [context_subscribe context].
  rewrite (scoped_getInstance_present s r a Hentry). cbn [fst snd].
  rewrite (scoped_onNotifier_present a _ r _ Hm).
  cbn [heap set_heap isMounted memory registered pendingStores upstream env
       trace].
  rewrite list_lookup_insert_eq by by eapply lookup_lt_Some.
  rewrite length_insert.
  unfold StoreAdapter.touched, Notifier.subscribe, Notifier.set_add.
  cbn [StoreAdapter.notifier StoreAdapter.unsubscribe Notifier.alive
       Notifier.listeners Notifier.value].
  rewrite bool_decide_eq_false_2 by done.
  split_and!; done.
Qed.

Lemma scoped_subscribe_absent s (c : Notifier.Listener) r :
  isMounted r = true →
  memory r !! id s = None →
  let r' := fst (context_subscribe context s c r) in
  let a := length (heap r) in
  snd (context_subscribe context s c r)
  = {| of_store := s; of_instance := a; of_callback := c |}
  ∧ heap r' !! a
    = Some {| StoreAdapter.notifier := Notifier.mk true [c] (read s (env r));
              StoreAdapter.unsubscribe := None |}
  ∧ isMounted r' = true ∧ memory r' !! id s = Some a
  ∧ registered r' = registered r
  ∧ pendingStores r' = pending_add s (pendingStores r)
  ∧ upstream r' = upstream r ∧ env r' = env r
  ∧ trace r' = trace r ++ [StoreRead (id s) (read s (env r))].
Proof.
  intros Hm Habsent r' a. subst r'. cbn [context_subscribe context].
  unfold getInstance. rewrite Habsent.
  cbn [log set_heap heap isMounted]. rewrite Hm. cbn [fst snd].
  set (fresh := {| StoreAdapter.notifier := Notifier.new (read s (env r));
                   StoreAdapter.unsubscribe := None |}).
  set (r4 := set_timers _ _).
  assert (Hfresh : heap r4 !! a = Some fresh) by by apply list_lookup_middle.
  rewrite (scoped_onNotifier_present a _ r4 _ Hfresh).
  cbn [heap set_heap isMounted memory registered pendingStores upstream env
       trace].
  rewrite list_lookup_insert_eq by by eapply lookup_lt_Some.
  subst r4.
  cbn [heap set_heap isMounted memory registered pendingStores upstream env
       trace set_timers set_pendingStores set_memory log].
  rewrite lookup_insert_eq, Hm.
  split_and!; done.
Qed.

Lemma scoped_registerStore_entry s r a ls v t :
  memory r !! id s = Some a →
  heap r !! a = Some {| StoreAdapter.notifier := Notifier.mk true ls v;
                        StoreAdapter.unsubscribe := t |} →
  self s ∉ registered r →
  let r' := registerStore s r in
  let h := length (upstream r) in
  heap r' !! a
  = Some {| StoreAdapter.notifier := Notifier.mk true ls v;
            StoreAdapter.unsubscribe :=
              match subscribe s with
              | StoreAdapter.ReturnsTeardown => Some h
              | StoreAdapter.ReturnsUndefined => t
              end |}
  ∧ isMounted r' = isMounted r ∧ memory r' = memory r
  ∧ registered r' = {[self s]} ∪ registered r
  ∧ Scenario.scopedSubscribeCalls (id s) (trace r')
    = Scenario.scopedSubscribeCalls (id s) (trace r) ++ [h]
  ∧ ScopedHost.unsubscribeCalls (trace r')
    = ScopedHost.unsubscribeCalls (trace r).
Proof.
  intros Hentry Hm Hfresh r' h. subst r'. unfold registerStore.
  rewrite Hentry, bool_decide_eq_false_2 by done.
  set (c := {| store := s; instance := a |}).
  set (r1 := log _ _).
  destruct (scoped_checkForUpdates_frame c r1)
    as (F1 & F2 & F3 & F4 & _ & F6).
  destruct (scoped_checkForUpdates_trace c r1) as (_ & G2).
  assert (Hcalls : Scenario.scopedSubscribeCalls (id s) (trace r1)
                   = Scenario.scopedSubscribeCalls (id s) (trace r) ++ [h]).
  { subst r1. cbn [trace log set_upstream].
    rewrite scoped_subscribeCalls_app. cbn.
    by rewrite bool_decide_eq_true_2. }
  assert (Hun : ScopedHost.unsubscribeCalls (trace r1)
                = ScopedHost.unsubscribeCalls (trace r)).
  { subst r1. cbn [trace log set_upstream].
    rewrite scoped_unsubscribeCalls_app. cbn. by rewrite app_nil_r. }
  assert (Hheap1 : heap (checkForUpdates c r1) !! a
                   = Some {| StoreAdapter.notifier := Notifier.mk true ls v;
                             StoreAdapter.unsubscribe := t |})
    by by rewrite F3.
  destruct (subscribe s).
  - rewrite Hheap1.
    cbn [heap set_heap set_registered isMounted memory registered trace
         StoreAdapter.notifier].
    rewrite list_lookup_insert_eq by by eapply lookup_lt_Some.
    rewrite F1, F2, F4, F6, G2, Hcalls, Hun. split_and!; done.
  - cbn [heap set_heap set_registered isMounted memory registered trace].
    rewrite Hheap1, F1, F2, F4, F6, G2, Hcalls, Hun. split_and!; done.
Qed.

Lemma scoped_onNotifier_is a f r m m' :
  heap r !! a = Some m → StoreAdapter.touched f m = m' →
  onNotifier a f r = set_heap (<[a := m']> (heap r)) r.
Proof. intros Hm <-. by apply scoped_onNotifier_present. Qed.

Lemma scoped_unsubscribe_last s (c : Notifier.Listener) r a v t :
  keepAlive s = false →
  heap r !! a = Some {| StoreAdapter.notifier := Notifier.mk true [c] v;
                        StoreAdapter.unsubscribe := t |} →
  let r' := callUnsubscriber
              {| of_store := s; of_instance := a; of_callback := c |} r in
  heap r' !! a = Some {| StoreAdapter.notifier := Notifier.mk false [] v;
                         StoreAdapter.unsubscribe := t |}
  ∧ memory r' = delete (id s) (memory r)
  ∧ registered r' = registered r ∖ {[self s]}
  ∧ trace r' = trace r ++ match t with
                          | Some h => [StoreUnsubscribe h]
                          | None => []
                          end.
Proof.
  intros Hkeep Hm r'. subst r'.
  assert (Hlt : a < length (heap r)) by by eapply lookup_lt_Some.
  set (m1 := {| StoreAdapter.notifier := Notifier.mk true [] v;
                StoreAdapter.unsubscribe := t |}).
  set (m2 := {| StoreAdapter.notifier := Notifier.mk false [] v;
                StoreAdapter.unsubscribe := t |}).
  set (r1 := set_heap (<[a := m1]> (heap r)) r).
  assert (H1 : onNotifier a (Notifier.unsubscribe c) r = r1).
  { apply (scoped_onNotifier_is a _ r _ m1 Hm).
    unfold StoreAdapter.touched, Notifier.unsubscribe. cbn -[Notifier.set_delete].
    by rewrite (set_delete_head c []) by apply not_elem_of_nil. }
  assert (Hm1 : heap r1 !! a = Some m1)
    by (subst r1; cbn [heap set_heap]; by apply list_lookup_insert_eq).
  assert (Hnone : hasListenersAt a r1 = false)
    by (unfold hasListenersAt; by rewrite Hm1).
  set (r2 := match t with
             | Some h => log [StoreUnsubscribe h] r1
             | None => r1
             end).
  assert (Hm1' : heap r2 !! a = Some m1) by (subst r2; by destruct t).
  assert (H2 : dispose a r1 = set_heap (<[a := m2]> (heap r2)) r2).
  { unfold dispose. rewrite Hm1. cbn [StoreAdapter.unsubscribe m1]. fold r2.
    by apply (scoped_onNotifier_is a _ r2 m1 m2 Hm1'). }
  unfold callUnsubscriber. cbn [of_store of_instance of_callback].
  rewrite H1, Hkeep, Hnone. cbn [orb negb]. rewrite H2.
  cbn [heap set_heap set_memory set_registered memory registered trace].
  assert (Hlen : a < length (heap r2))
    by (subst r2 r1; destruct t; cbn [heap log set_heap];
        by rewrite length_insert).
  rewrite list_lookup_insert_eq by done.
  subst r2 r1. destruct t; cbn [memory registered trace log set_heap];
    rewrite ?app_nil_r; split_and!; done.
Qed.

Lemma scoped_unsubscribe_other s (c c' : Notifier.Listener)
    (ls : list Notifier.Listener) r a v t :
  c ∉ c' :: ls →
  heap r !! a = Some {| StoreAdapter.notifier := Notifier.mk true (c :: c' :: ls) v;
                        StoreAdapter.unsubscribe := t |} →
  let r' := callUnsubscriber
              {| of_store := s; of_instance := a; of_callback := c |} r in
  heap r' !! a = Some {| StoreAdapter.notifier := Notifier.mk true (c' :: ls) v;
                         StoreAdapter.unsubscribe := t |}
  ∧ memory r' = memory r ∧ registered r' = registered r
  ∧ trace r' = trace r.
Proof.
  intros Hc Hm r'. subst r'.
  assert (Hlt : a < length (heap r)) by by eapply lookup_lt_Some.
  set (m1 := {| StoreAdapter.notifier := Notifier.mk true (c' :: ls) v;
                StoreAdapter.unsubscribe := t |}).
  set (r1 := set_heap (<[a := m1]> (heap r)) r).
  assert (H1 : onNotifier a (Notifier.unsubscribe c) r = r1).
  { apply (scoped_onNotifier_is a _ r _ m1 Hm).
    unfold StoreAdapter.touched, Notifier.unsubscribe. cbn -[Notifier.set_delete].
    by rewrite (set_delete_head c (c' :: ls)). }
  assert (Hm1 : heap r1 !! a = Some m1)
    by (subst r1; cbn [heap set_heap]; by apply list_lookup_insert_eq).
  assert (Hsome : hasListenersAt a r1 = true)
    by (unfold hasListenersAt; by rewrite Hm1).
  unfold callUnsubscriber. cbn [of_store of_instance of_callback].
  rewrite H1, Hsome, orb_true_r. cbn [negb]. done.
Qed.

Lemma scoped_unsubscribeAll_entry s (c : Notifier.Listener)
    (cs : list Notifier.Listener) r a v t :
  keepAlive s = false →
  NoDup (c :: cs) →
  heap r !! a = Some {| StoreAdapter.notifier := Notifier.mk true (c :: cs) v;
                        StoreAdapter.unsubscribe := t |} →
  let r' := ScopedHost.unsubscribeAll
              ((λ c, {| of_store := s; of_instance := a; of_callback := c |})
                 <$> (c :: cs)) r in
  heap r' !! a = Some {| StoreAdapter.notifier := Notifier.mk false [] v;
                         StoreAdapter.unsubscribe := t |}
  ∧ memory r' = delete (id s) (memory r)
  ∧ registered r' = registered r ∖ {[self s]}
  ∧ trace r' = trace r ++ match t with
                          | Some h => [StoreUnsubscribe h]
                          | None => []
                          end.
Proof.
  intros Hkeep. revert c r. induction cs as [|c' cs IH]; intros c r Hnd Hm.
  - cbn. by apply scoped_unsubscribe_last.
  - apply NoDup_cons in Hnd as [Hc Hnd].
    destruct (scoped_unsubscribe_other s c c' cs r a v t Hc Hm)
      as (H1 & H2 & H3 & H4).
    rewrite fmap_cons. cbn [ScopedHost.unsubscribeAll fold_left].
    destruct (IH c' _ Hnd H1) as (I1 & I2 & I3 & I4).
    unfold ScopedHost.unsubscribeAll in *.
    rewrite I1, I2, I3, I4, H2, H3, H4. done.
Qed.

Lemma scoped_subscribeAll_entry s (cs : list Notifier.Listener)
    r (us : list Unsubscriber) a ls v t :
  memory r !! id s = Some a →
  heap r !! a = Some {| StoreAdapter.notifier := Notifier.mk true ls v;
                        StoreAdapter.unsubscribe := t |} →
  NoDup (ls ++ cs) →
  let result :=
    fold_left
      (λ '(r, us) callback,
         let '(r', u) := context_subscribe context s callback r in
         (r', us ++ [u]))
      cs (r, us) in
  snd result
  = us ++ ((λ c, {| of_store := s; of_instance := a; of_callback := c |})
             <$> cs)
  ∧ heap (fst result) !! a
    = Some {| StoreAdapter.notifier := Notifier.mk true (ls ++ cs) v;
              StoreAdapter.unsubscribe := t |}
  ∧ isMounted (fst result) = isMounted r ∧ memory (fst result) = memory r
  ∧ registered (fst result) = registered r
  ∧ pendingStores (fst result) = pendingStores r
  ∧ upstream (fst result) = upstream r ∧ env (fst result) = env r
  ∧ trace (fst result) = trace r.
Proof.
  revert r us ls. induction cs as [|c cs IH]; intros r us ls Hentry Hm Hnd.
  - cbn. rewrite !app_nil_r. split_and!; done.
  - assert (Hc : c ∉ ls).
    { apply NoDup_app in Hnd as (_ & Hdisj & _).
      intros Hin. apply (Hdisj c Hin). by left. }
    destruct (scoped_subscribe_present s c r a ls v t Hentry Hm Hc)
      as (S1 & S2 & S3 & S4 & S5 & S6 & S7 & S8 & S9 & _).
    cbn [fold_left].
    destruct (context_subscribe context s c r) as [r1 u1]. cbn [fst snd] in *.
    subst u1.
    destruct (IH r1 (us ++ [{| of_store := s; of_instance := a;
                               of_callback := c |}]) (ls ++ [c]))
      as (I1 & I2 & I3 & I4 & I5 & I6 & I7 & I8 & I9).
    { by rewrite S4. }
    { done. }
    { by rewrite <- app_assoc. }
    cbn zeta. rewrite I1, I2, I3, I4, I5, I6, I7, I8, I9.
    rewrite fmap_cons, <- !app_assoc. split_and!; done.
Qed.

(** X11: under the scoped-model root, any number of consumers with
    different callbacks subscribe to a store that had no entry, the
    registration effect runs, and the consumers unsubscribe in turn.  With
    [keepAlive] false the store's [subscribe] has then been called once,
    the teardown it returned (if any) once, the entry and the registration
    mark are gone, and the Notifier is destroyed holding the value read
    when the first consumer came. *)
Theorem scoped_consumers_lifecycle
    s (c : Notifier.Listener) (cs : list Notifier.Listener) r :
  keepAlive s = false →
  isMounted r = true →
  memory r !! id s = None →
  pendingStores r = [] →
  self s ∉ registered r →
  NoDup (c :: cs) →
  let subscribed := ScopedHost.subscribeAll s (c :: cs) r in
  let r2 := flushRegistrations (fst subscribed) in
  let r3 := ScopedHost.unsubscribeAll (snd subscribed) r2 in
  let h := length (upstream r) in
  Scenario.scopedSubscribeCalls (id s) (trace r3)
  = Scenario.scopedSubscribeCalls (id s) (trace r) ++ [h]
  ∧ ScopedHost.unsubscribeCalls (trace r3)
    = ScopedHost.unsubscribeCalls (trace r)
        ++ match subscribe s with
           | StoreAdapter.ReturnsTeardown => [h]
           | StoreAdapter.ReturnsUndefined => []
           end
  ∧ memory r3 !! id s = None
  ∧ (self s ∉ registered r3)
  ∧ heap r3 !! length (heap r)
    = Some {| StoreAdapter.notifier := Notifier.mk false [] (read s (env r));
              StoreAdapter.unsubscribe :=
                match subscribe s with
                | StoreAdapter.ReturnsTeardown => Some h
                | StoreAdapter.ReturnsUndefined => None
                end |}.
Proof.
  intros Hkeep Hm Habsent Hpending Hreg Hnd subscribed r2 r3 h.
  set (a := length (heap r)).
  set (v := read s (env r)).
  destruct (scoped_subscribe_absent s c r Hm Habsent)
    as (A1 & A2 & A3 & A4 & A5 & A6 & A7 & A8 & A9).
  fold a v in A1, A2, A4, A9.
  unfold ScopedHost.subscribeAll in subscribed. cbn [fold_left] in subscribed.
  destruct (context_subscribe context s c r) as [r1 u1]. cbn [fst snd] in *.
  subst u1. change ([] ++ [?x]) with [x] in subscribed.
  destruct (scoped_subscribeAll_entry s cs r1
              [{| of_store := s; of_instance := a; of_callback := c |}]
              a [c] v None A4 A2)
    as (B1 & B2 & B3 & B4 & B5 & B6 & B7 & B8 & B9).
  { done. }
  fold subscribed in B1, B2, B3, B4, B5, B6, B7, B8, B9.
  assert (Hflush : r2 = registerStore s (set_pendingStores [] (fst subscribed))).
  { subst r2. unfold flushRegistrations.
    rewrite B6, A6, Hpending. done. }
  destruct (scoped_registerStore_entry s
              (set_pendingStores [] (fst subscribed)) a ([c] ++ cs) v None)
    as (C1 & C2 & C3 & C4 & C5 & C6).
  { cbn [memory set_pendingStores]. by rewrite B4. }
  { done. }
  { cbn [registered set_pendingStores]. by rewrite B5, A5. }
  rewrite <- Hflush in C1, C2, C3, C4, C5, C6.
  cbn [upstream trace set_pendingStores] in C1, C5, C6.
  rewrite B7, A7 in C1, C5. fold h in C1, C5.
  destruct (scoped_unsubscribeAll_entry s c cs r2 a v
              (match subscribe s with
               | StoreAdapter.ReturnsTeardown => Some h
               | StoreAdapter.ReturnsUndefined => None
               end) Hkeep Hnd)
    as (D1 & D2 & D3 & D4).
  { done. }
  assert (Hr3 : r3 = ScopedHost.unsubscribeAll
                       ((λ c, {| of_store := s; of_instance := a;
                                 of_callback := c |}) <$> (c :: cs)) r2).
  { subst r3. by rewrite B1. }
  rewrite <- Hr3 in D1, D2, D3, D4.
  rewrite D4, scoped_subscribeCalls_app, scoped_unsubscribeCalls_app,
          C5, C6, B9, A9, scoped_subscribeCalls_app,
          scoped_unsubscribeCalls_app.
  split_and!.
  - cbn [Scenario.scopedSubscribeCalls omap].
    destruct (subscribe s); cbn; by rewrite !app_nil_r.
  - cbn [ScopedHost.unsubscribeCalls omap].
    destruct (subscribe s); cbn; by rewrite !app_nil_r.
  - rewrite D2. apply lookup_delete_eq.
  - rewrite D3. intros [_ Hn]%elem_of_difference.
    apply Hn. by apply elem_of_singleton.
  - destruct (subscribe s); exact D1.
Qed.

Lemma scoped_consumers_lifecycle_witness :
  Scenario.scopedSubscribeCalls "Store-0"
    (trace (ScopedHost.unsubscribeAll
              (snd (ScopedHost.subscribeAll (Scenario.scopedCounter false)
                      [1; 2; 3] (mount (Scenario.counterAt Js.posZero))))
              (flushRegistrations
                 (fst (ScopedHost.subscribeAll (Scenario.scopedCounter false)
                         [1; 2; 3] (mount (Scenario.counterAt Js.posZero)))))))
  = [] ++ [0]
  ∧ ScopedHost.unsubscribeCalls
      (trace (ScopedHost.unsubscribeAll
                (snd (ScopedHost.subscribeAll (Scenario.scopedCounter false)
                        [1; 2; 3] (mount (Scenario.counterAt Js.posZero))))
                (flushRegistrations
                   (fst (ScopedHost.subscribeAll
                           (Scenario.scopedCounter false)
                           [1; 2; 3]
                           (mount (Scenario.counterAt Js.posZero)))))))
    = [] ++ [0].
Proof.
  destruct (scoped_consumers_lifecycle (Scenario.scopedCounter false)
              1 [2; 3] (mount (Scenario.counterAt Js.posZero)))
    as (Hsub & Hunsub & _).
  - reflexivity.
  - reflexivity.
  - reflexivity.
  - reflexivity.
  - cbn. apply not_elem_of_empty.
  - apply (bool_decide_unpack _). reflexivity.
  - split; [exact Hsub|exact Hunsub].
Defined.

End ScopedLifecycle.

(** ** The life of a store's entry under the root of
    [src/src/StoreAdapter.tsx] *)

Section Lifecycle.
Import StoreAdapter.
Implicit Types (r : Root) (s : StoreAdapter.StoreAdapter) (a b : Address).

Lemma unsubscribeCalls_app (t1 t2 : list Event) :
  Scenario.unsubscribeCalls (t1 ++ t2)
  = Scenario.unsubscribeCalls t1 ++ Scenario.unsubscribeCalls t2.
Proof. apply omap_app. Qed.

Lemma onNotifier_is a f r m m' :
  heap r !! a = Some m → touched f m = m' →
  onNotifier a f r = set_heap (<[a := m']> (heap r)) r.
Proof. intros Hm <-. unfold onNotifier. by rewrite Hm. Qed.

Lemma checkForUpdates_trace (c : Check) r :
  Scenario.unsubscribeCalls (trace (checkForUpdates c r))
  = Scenario.unsubscribeCalls (trace r).
Proof.
  unfold checkForUpdates. destruct (isMounted r); [|done]. cbn.
  destruct (heap r !! instance c) as [m|]; cbn;
    [destruct (shouldUpdate _ _ _); cbn|];
    unfold Scenario.unsubscribeCalls; rewrite omap_app; cbn;
    by rewrite app_nil_r.
Qed.

Lemma mounts_absent s (options : option UseStoreAdapterOptions)
    (cb : Notifier.Listener) r :
  isMounted r = true →
  memory r !! id s = None →
  let a := length (heap r) in
  let r' := fst (Host.mounts s options cb r) in
  snd (Host.mounts s options cb r)
  = Some {| of_store := s; of_instance := a; of_callback := cb |}
  ∧ heap r' !! a
    = Some {| notifier := Notifier.mk true [cb] (read s (env r));
              unsubscribe := None |}
  ∧ isMounted r' = true
  ∧ memory r' = <[id s := a]> (memory r)
  ∧ pendingStores r' = pendingStores r ++ [s]
  ∧ upstream r' = upstream r
  ∧ trace r' = trace r ++ [StoreRead (id s) (read s (env r))].
Proof.
  intros Hm Habsent a r'. subst r'.
  unfold Host.mounts, useStoreAdapter, useSubscription.
  cbn [useStoreAdapterContext useStoreAdapterContextRef current
       subscription_read context_read context].
  rewrite (getInstance_absent s r Habsent). cbn zeta. rewrite Hm.
  set (fresh := {| notifier := Notifier.new (read s (env r));
                   unsubscribe := None |}).
  set (r1 := set_memory _ _). fold a.
  assert (Hfresh1 : heap r1 !! a = Some fresh) by apply lookup_fresh.
  fold a. unfold Address in *. rewrite Hfresh1.
  unfold mountConsumer.
  cbn [subscription subscription_subscribe effect register context
       context_subscribe].
  assert (Hm1 : isMounted r1 = true) by done. rewrite Hm1.
  set (r2 := set_pendingStores _ r1).
  assert (Hentry2 : memory r2 !! id s = Some a)
    by (subst r2 r1; cbn [memory set_pendingStores set_memory];
        apply lookup_insert_eq).
  rewrite (getInstance_present s r2 a Hentry2).
  assert (Hfresh2 : heap r2 !! a = Some fresh) by done.
  rewrite (onNotifier_is a _ r2 fresh
             {| notifier := Notifier.mk true [cb] (read s (env r));
                unsubscribe := None |} Hfresh2) by done.
  cbn [fst snd heap set_heap isMounted memory pendingStores upstream trace].
  rewrite list_lookup_insert_eq by by eapply lookup_lt_Some.
  split_and!; done.
Qed.

Lemma registerStore_entry s r a ls v t :
  memory r !! id s = Some a →
  heap r !! a = Some {| notifier := Notifier.mk true ls v; unsubscribe := t |} →
  let r' := registerStore s r in
  let h := length (upstream r) in
  heap r' !! a
  = Some {| notifier := Notifier.mk true ls v;
            unsubscribe := match subscribe s with
                           | ReturnsTeardown => Some h
                           | ReturnsUndefined => t
                           end |}
  ∧ isMounted r' = isMounted r ∧ memory r' = memory r
  ∧ Scenario.subscribeCalls (id s) (trace r')
    = Scenario.subscribeCalls (id s) (trace r) ++ [h]
  ∧ Scenario.unsubscribeCalls (trace r')
    = Scenario.unsubscribeCalls (trace r).
Proof.
  intros Hentry Hm r' h.
  destruct (registerStore_subscribes s r a Hentry) as (R1 & R2 & _ & R4).
  fold r' h in R1, R2, R4.
  subst r'. unfold registerStore in *. rewrite Hentry in *.
  set (c := {| store := s; instance := a |}) in *.
  set (r1 := log _ _) in *.
  destruct (checkForUpdates_frame c r1) as (_ & _ & F3 & _).
  assert (Hun : Scenario.unsubscribeCalls (trace (checkForUpdates c r1))
                = Scenario.unsubscribeCalls (trace r)).
  { rewrite checkForUpdates_trace. subst r1. cbn [trace log set_upstream].
    rewrite unsubscribeCalls_app. cbn. by rewrite app_nil_r. }
  assert (Hheap1 : heap (checkForUpdates c r1) !! a
                   = Some {| notifier := Notifier.mk true ls v;
                             unsubscribe := t |})
    by by rewrite F3.
  destruct (subscribe s).
  - rewrite Hheap1 in *. cbn [heap set_heap trace notifier] in *.
    rewrite list_lookup_insert_eq by by eapply lookup_lt_Some.
    split_and!; done.
  - split_and!; done.
Qed.

Lemma unsubscribe_last s (c : Notifier.Listener) r a v t :
  heap r !! a = Some {| notifier := Notifier.mk true [c] v; unsubscribe := t |} →
  let r' := callUnsubscriber
              {| of_store := s; of_instance := a; of_callback := c |} r in
  heap r' !! a = Some {| notifier := Notifier.mk false [] v; unsubscribe := t |}
  ∧ memory r' = delete (id s) (memory r)
  ∧ trace r' = trace r ++ match t with
                          | Some h => [StoreUnsubscribe h]
                          | None => []
                          end.
Proof.
  intros Hm r'. subst r'.
  assert (Hlt : a < length (heap r)) by by eapply lookup_lt_Some.
  set (m1 := {| notifier := Notifier.mk true [] v; unsubscribe := t |}).
  set (m2 := {| notifier := Notifier.mk false [] v; unsubscribe := t |}).
  set (r1 := set_heap (<[a := m1]> (heap r)) r).
  assert (H1 : onNotifier a (Notifier.unsubscribe c) r = r1).
  { apply (onNotifier_is a _ r _ m1 Hm).
    unfold touched, Notifier.unsubscribe. cbn -[Notifier.set_delete].
    by rewrite (set_delete_head c []) by apply not_elem_of_nil. }
  assert (Hm1 : heap r1 !! a = Some m1)
    by (subst r1; cbn [heap set_heap]; by apply list_lookup_insert_eq).
  assert (Hnone : hasListenersAt a r1 = false)
    by (unfold hasListenersAt; by rewrite Hm1).
  set (r2 := match t with
             | Some h => log [StoreUnsubscribe h] r1
             | None => r1
             end).
  assert (Hm1' : heap r2 !! a = Some m1) by (subst r2; by destruct t).
  assert (H2 : dispose a r1 = set_heap (<[a := m2]> (heap r2)) r2).
  { unfold dispose. rewrite Hm1. cbn [unsubscribe m1]. fold r2.
    by apply (onNotifier_is a _ r2 m1 m2 Hm1'). }
  unfold callUnsubscriber. cbn [of_store of_instance of_callback].
  rewrite H1, Hnone. cbn [negb]. rewrite H2.
  cbn [heap set_heap set_memory memory trace].
  assert (Hlen : a < length (heap r2))
    by (subst r2 r1; destruct t; cbn [heap log set_heap];
        by rewrite length_insert).
  rewrite list_lookup_insert_eq by done.
  subst r2 r1. destruct t; cbn [memory trace log set_heap];
    rewrite ?app_nil_r; split_and!; done.
Qed.

(** X12: under the root of [src/src/StoreAdapter.tsx], one consumer of a
    store that had no entry renders and mounts, the registration effect
    runs, and the consumer unsubscribes.  The store's [subscribe] has then
    been called once, the teardown it returned (if any) once, the registry
    is as it was before the consumer came, and the Notifier is destroyed
    holding the value read at the render. *)
Theorem single_consumer_lifecycle
    s (options : option UseStoreAdapterOptions) (cb : Notifier.Listener) r :
  isMounted r = true →
  memory r !! id s = None →
  pendingStores r = [] →
  let mounted := Host.mounts s options cb r in
  let r2 := flushRegistrations (fst mounted) in
  let a := length (heap r) in
  let h := length (upstream r) in
  let u := {| of_store := s; of_instance := a; of_callback := cb |} in
  let r3 := callUnsubscriber u r2 in
  snd mounted = Some u
  ∧ Scenario.subscribeCalls (id s) (trace r3)
    = Scenario.subscribeCalls (id s) (trace r) ++ [h]
  ∧ Scenario.unsubscribeCalls (trace r3)
    = Scenario.unsubscribeCalls (trace r)
        ++ match subscribe s with
           | ReturnsTeardown => [h]
           | ReturnsUndefined => []
           end
  ∧ memory r3 = memory r
  ∧ heap r3 !! a
    = Some {| notifier := Notifier.mk false [] (read s (env r));
              unsubscribe := match subscribe s with
                             | ReturnsTeardown => Some h
                             | ReturnsUndefined => None
                             end |}.
Proof.
  intros Hm Habsent Hpending mounted r2 a h u r3.
  destruct (mounts_absent s options cb r Hm Habsent)
    as (A1 & A2 & A3 & A4 & A5 & A6 & A7).
  fold mounted a in A1, A2, A3, A4, A5, A6, A7.
  assert (Hflush : r2 = registerStore s (set_pendingStores [] (fst mounted))).
  { subst r2. unfold flushRegistrations. rewrite A5, Hpending. done. }
  destruct (registerStore_entry s (set_pendingStores [] (fst mounted))
              a [cb] (read s (env r)) None)
    as (C1 & C2 & C3 & C4 & C5).
  { cbn [memory set_pendingStores]. rewrite A4. apply lookup_insert_eq. }
  { done. }
  rewrite <- Hflush in C1, C2, C3, C4, C5.
  cbn [upstream trace memory set_pendingStores] in C1, C3, C4, C5.
  rewrite A6 in C1, C4. fold h in C1, C4.
  destruct (unsubscribe_last s cb r2 a (read s (env r))
              (match subscribe s with
               | ReturnsTeardown => Some h
               | ReturnsUndefined => None
               end) C1)
    as (D1 & D2 & D3).
  fold u r3 in D1, D2, D3.
  rewrite D3, subscribeCalls_app, unsubscribeCalls_app, C4, C5, A7,
          subscribeCalls_app, unsubscribeCalls_app.
  split_and!.
  - done.
  - cbn [Scenario.subscribeCalls omap].
    destruct (subscribe s); cbn; by rewrite !app_nil_r.
  - cbn [Scenario.unsubscribeCalls omap].
    destruct (subscribe s); cbn; by rewrite !app_nil_r.
  - rewrite D2, C3, A4. by apply delete_insert_id.
  - done.
Qed.

Lemma single_consumer_lifecycle_witness :
  Scenario.subscribeCalls "Store-0"
    (trace (callUnsubscriber
              {| of_store := Scenario.counter; of_instance := 0;
                 of_callback := 1 |}
              (flushRegistrations
                 (fst (Host.mounts Scenario.counter None 1
                         (mount (Scenario.counterAt Js.posZero)))))))
  = [] ++ [0]
  ∧ Scenario.unsubscribeCalls
      (trace (callUnsubscriber
                {| of_store := Scenario.counter; of_instance := 0;
                   of_callback := 1 |}
                (flushRegistrations
                   (fst (Host.mounts Scenario.counter None 1
                           (mount (Scenario.counterAt Js.posZero)))))))
    = [] ++ [0].
Proof.
  destruct (single_consumer_lifecycle Scenario.counter None 1
              (mount (Scenario.counterAt Js.posZero)))
    as (_ & Hsub & Hunsub & _);
    [reflexivity|reflexivity|reflexivity|].
  split; [exact Hsub|exact Hunsub].
Defined.

(** X13: the closure returned by [context.subscribe] removes the entry
    by the store's id.  Called when its own instance has no listener left
    but the registry holds a newer instance under that id, it removes the
    newer instance's entry and leaves that instance itself, with its
    listeners, as it was. *)
Theorem stale_unsubscriber_removes_newer_entry
    s a b (cb : Notifier.Listener) r :
  onlyListener cb a r →
  memory r !! id s = Some b →
  a ≠ b →
  let r' := callUnsubscriber
              {| of_store := s; of_instance := a; of_callback := cb |} r in
  memory r' !! id s = None
  ∧ heap r' !! b = heap r !! b
  ∧ isMounted r' = isMounted r.
Proof.
  intros Honly Hentry Hab r'.
  destruct (callUnsubscriber_only s a cb r Honly) as (Hnone & Hgone & _).
  fold r' in Hgone. split_and!; [done| |].
  - subst r'. unfold callUnsubscriber.
    cbn [of_store of_instance of_callback]. rewrite Hnone. cbn [negb].
    cbn [heap set_memory].
    destruct (dispose_frame a (onNotifier a (Notifier.unsubscribe cb) r))
      as (_ & _ & ->).
    rewrite decide_False by done.
    rewrite onNotifier_lookup. by rewrite decide_False.
  - subst r'. unfold callUnsubscriber.
    cbn [of_store of_instance of_callback]. rewrite Hnone. cbn [negb].
    cbn [isMounted set_memory].
    destruct (dispose_frame a (onNotifier a (Notifier.unsubscribe cb) r))
      as (-> & _).
    by destruct (onNotifier_frame a (Notifier.unsubscribe cb) r) as (-> & _).
Qed.

Lemma stale_unsubscriber_removes_newer_entry_witness :
  memory (callUnsubscriber
            {| of_store := Scenario.counter; of_instance := 0;
               of_callback := 9 |} Cases.newerEntry) !! "Store-0" = None
  ∧ heap (callUnsubscriber
            {| of_store := Scenario.counter; of_instance := 0;
               of_callback := 9 |} Cases.newerEntry) !! 1
    = Some {| notifier := Notifier.mk true [5] Js.posZero;
              unsubscribe := None |}.
Proof.
  destruct (stale_unsubscriber_removes_newer_entry
              Scenario.counter 0 1 9 Cases.newerEntry)
    as (Hgone & Hkept & _).
  - intros m l Hm Hl. vm_compute in Hm. injection Hm as <-.
    cbn in Hl. by apply elem_of_nil in Hl.
  - reflexivity.
  - lia.
  - split; [exact Hgone|]. etrans; [exact Hkept|reflexivity].
Defined.

End Lifecycle.

(** ** What holds in every state a mounted root can reach *)

Section Reachable.
Import StoreAdapter.
Implicit Types (r : Root) (s : StoreAdapter.StoreAdapter) (a b : Address)
               (x : Session.t).

Lemma keepsLive_refl r : Session.keepsLive r r.
Proof. by split. Qed.

Lemma keepsLive_trans r1 r2 r3 :
  Session.keepsLive r1 r2 → Session.keepsLive r2 r3 →
  Session.keepsLive r1 r3.
Proof.
  intros [L12 H12] [L23 H23]. split; [congruence|].
  intros a Ha. by apply H23, H12.
Qed.

Lemma keepsLive_heap r r' : heap r' = heap r → Session.keepsLive r r'.
Proof.
  intros Hheap. split; [by rewrite Hheap|].
  intros a. unfold Session.aliveAt. by rewrite Hheap.
Qed.

Lemma onNotifier_length a f r :
  length (heap (onNotifier a f r)) = length (heap r).
Proof.
  unfold onNotifier. destruct (heap r !! a); [|done].
  cbn [heap set_heap]. apply length_insert.
Qed.

Lemma onNotifier_memory a f r : memory (onNotifier a f r) = memory r.
Proof. by destruct (onNotifier_frame a f r) as (_ & -> & _). Qed.

Lemma keepsLive_onNotifier a f r :
  (∀ n, Notifier.alive (f n) = Notifier.alive n) →
  Session.keepsLive r (onNotifier a f r).
Proof.
  intros Hf. split; [apply onNotifier_length|].
  intros b (m & Hm & Hlive). unfold Session.aliveAt.
  rewrite onNotifier_lookup. case_decide as Hab; [subst b|by exists m].
  rewrite Hm. exists (touched f m). split; [done|]. cbn. by rewrite Hf.
Qed.

Lemma alive_subscribe l (n : Notifier.t Js.Value) :
  Notifier.alive (Notifier.subscribe l n) = Notifier.alive n.
Proof. unfold Notifier.subscribe. by destruct (Notifier.alive n) eqn:E. Qed.

Lemma alive_unsubscribe l (n : Notifier.t Js.Value) :
  Notifier.alive (Notifier.unsubscribe l n) = Notifier.alive n.
Proof. unfold Notifier.unsubscribe. by destruct (Notifier.alive n) eqn:E. Qed.

Lemma keepsLive_forEach {A : Type} (f : A → Root → Root) (xs : list A) r :
  (∀ y r0, Session.keepsLive r0 (f y r0)) →
  Session.keepsLive r (forEach f xs r).
Proof.
  intros Hf. revert r. induction xs as [|y xs IH]; intros r.
  - apply keepsLive_refl.
  - cbn. eapply keepsLive_trans; [apply (Hf y)|apply IH].
Qed.

Lemma keepsLive_insert_same a r m m' :
  heap r !! a = Some m →
  Notifier.alive (notifier m') = Notifier.alive (notifier m) →
  Session.keepsLive r (set_heap (<[a := m']> (heap r)) r).
Proof.
  intros Hm Hlive. split; [cbn [heap set_heap]; apply length_insert|].
  intros b (mb & Hmb & Hb). unfold Session.aliveAt. cbn [heap set_heap].
  destruct (decide (a = b)) as [<-|Hab].
  - rewrite list_lookup_insert_eq by by eapply lookup_lt_Some.
    exists m'. split; [done|]. rewrite Hlive. congruence.
  - rewrite list_lookup_insert_ne by done. by exists mb.
Qed.

Lemma keepsLive_registerStore s r : Session.keepsLive r (registerStore s r).
Proof.
  unfold registerStore. destruct (memory r !! id s) as [a|];
    [|apply keepsLive_refl].
  set (c := {| store := s; instance := a |}).
  set (r1 := log _ _).
  destruct (checkForUpdates_frame c r1) as (_ & _ & Hheap & _).
  assert (Hr1 : heap (checkForUpdates c r1) = heap r) by by rewrite Hheap.
  destruct (subscribe s); [|by apply keepsLive_heap].
  destruct (heap (checkForUpdates c r1) !! a) as [m|] eqn:Hm;
    [|by apply keepsLive_heap].
  eapply keepsLive_trans; [apply (keepsLive_heap r _ Hr1)|].
  by apply (keepsLive_insert_same a _ m).
Qed.

Lemma keepsLive_runUpdate (u : Update) r : Session.keepsLive r (runUpdate u r).
Proof.
  unfold runUpdate. cbn [heap log].
  destruct (heap r !! target u) as [m|] eqn:Hm; [|by apply keepsLive_heap].
  destruct (Notifier.notify (nextValue u) (notifier m)) as [n calls] eqn:Hn.
  assert (Hlive : Notifier.alive n = Notifier.alive (notifier m)).
  { unfold Notifier.notify in Hn.
    destruct (Notifier.alive (notifier m)) eqn:E; injection Hn as <- _;
      by rewrite ?E. }
  eapply keepsLive_trans;
    [apply (keepsLive_insert_same (target u) r m
              {| notifier := n; unsubscribe := unsubscribe m |} Hm Hlive)|].
  by apply keepsLive_heap.
Qed.

Lemma dispose_length a r : length (heap (dispose a r)) = length (heap r).
Proof.
  unfold dispose. destruct (heap r !! a) as [m|]; [|done].
  rewrite onNotifier_length. by destruct (unsubscribe m).
Qed.

Lemma dispose_keeps_others a b r :
  a ≠ b → Session.aliveAt b r → Session.aliveAt b (dispose a r).
Proof.
  intros Hab (m & Hm & Hlive). exists m. split; [|done].
  destruct (dispose_frame a r) as (_ & _ & ->). by rewrite decide_False.
Qed.

Lemma forEach_dispose_length (addresses : list Address) r :
  length (heap (forEach dispose addresses r)) = length (heap r).
Proof.
  revert r. induction addresses as [|a addresses IH]; intros r; [done|].
  cbn. unfold forEach in IH. by rewrite IH, dispose_length.
Qed.

Lemma invariant_stable r r' (cl : list Unsubscriber) :
  Session.invariant (Session.mk r cl) →
  memory r' = memory r →
  Session.keepsLive r r' →
  Session.invariant (Session.mk r' cl).
Proof.
  intros (owner & Hentries & Hclosures) Hmem [Hlen Hlive].
  exists owner. cbn [Session.root Session.closures] in *. split.
  - intros i a. rewrite Hmem. intros Hi.
    destruct (Hentries i a Hi) as [Ho Ha]. split; [done|by apply Hlive].
  - intros u Hu. rewrite Hlen. by apply Hclosures.
Qed.

Lemma invariant_getInstance s (cb : Notifier.Listener) r
    (cl : list Unsubscriber) :
  Session.invariant (Session.mk r cl) →
  Session.invariant
    (Session.mk (fst (getInstance s r))
       (cl ++ [{| of_store := s; of_instance := snd (getInstance s r);
                  of_callback := cb |}]))
  ∧ Session.aliveAt (snd (getInstance s r)) (fst (getInstance s r)).
Proof.
  intros (owner & Hentries & Hclosures).
  cbn [Session.root Session.closures] in *.
  destruct (memory r !! id s) as [a|] eqn:Hlookup.
  - rewrite (getInstance_present s r a Hlookup). cbn [fst snd].
    destruct (Hentries _ _ Hlookup) as [Ho Ha]. split; [|done].
    exists owner. cbn [Session.root Session.closures]. split; [done|].
    intros u [Hu|Hu%list_elem_of_singleton]%elem_of_app;
      [by apply Hclosures|].
    subst u. cbn. split; [done|].
    destruct Ha as (m & Hm & _). by eapply lookup_lt_Some.
  - rewrite (getInstance_absent s r Hlookup). cbn zeta. cbn [fst snd].
    set (fresh := {| notifier := Notifier.new (read s (env r));
                     unsubscribe := None |}).
    set (r2 := if isMounted r then _ else _).
    assert (Hheap : heap r2 = heap r ++ [fresh])
      by (subst r2; by destruct (isMounted r)).
    assert (Hmem : ∀ i a, memory r2 !! i = Some a →
              (i = id s ∧ a = length (heap r)) ∨ memory r !! i = Some a).
    { intros i a. subst r2. destruct (isMounted r);
        cbn [memory set_memory set_heap log]; [|by right].
      rewrite lookup_insert_Some. intros [[<- <-]|[_ ?]]; [by left|by right]. }
    assert (Hold : ∀ a, Session.aliveAt a r → Session.aliveAt a r2).
    { intros a (m & Hm & Hlive). exists m. split; [|done].
      rewrite Hheap. by apply lookup_app_l_Some. }
    assert (Hnew : Session.aliveAt (length (heap r)) r2).
    { exists fresh. split; [|done]. rewrite Hheap. apply lookup_fresh. }
    split; [|done].
    exists (λ a, if decide (a = length (heap r)) then id s else owner a).
    cbn [Session.root Session.closures]. split.
    + intros i a [[-> ->]|Hi]%Hmem.
      * by rewrite decide_True.
      * destruct (Hentries i a Hi) as [Ho Ha]. split; [|by apply Hold].
        destruct Ha as (m & Hm%lookup_lt_Some & _).
        rewrite decide_False by lia. done.
    + rewrite Hheap, length_app. cbn [length].
      intros u [Hu|Hu%list_elem_of_singleton]%elem_of_app.
      * destruct (Hclosures u Hu) as [Ho Hlt].
        rewrite decide_False by lia. split; [done|lia].
      * subst u. cbn. rewrite decide_True by done. split; [done|lia].
Qed.

Lemma invariant_fewer_closures r (cl cl' : list Unsubscriber) :
  Session.invariant (Session.mk r cl) →
  (∀ u, u ∈ cl' → u ∈ cl) →
  Session.invariant (Session.mk r cl').
Proof.
  intros (owner & Hentries & Hclosures) Hsub. exists owner.
  split; [done|]. intros u Hu. by apply Hclosures, Hsub.
Qed.

Lemma invariant_call x (c : Session.Call) :
  Session.invariant x → Session.invariant (Session.call x c).
Proof.
  destruct x as [r cl]. intros Hinv.
  destruct c as [s|s cb|k|s|h e| | | |];
    cbn [Session.call Session.root Session.closures].
  - destruct (invariant_getInstance s 0 r cl Hinv) as [Hget _].
    cbn [context_read context].
    destruct (getInstance s r) as [r1 a]. cbn [fst snd] in *.
    apply (invariant_fewer_closures r1 _ cl) in Hget; [done|].
    intros u Hu. apply elem_of_app. by left.
  - destruct (invariant_getInstance s cb r cl Hinv) as [Hget _].
    cbn [context_subscribe context].
    destruct (getInstance s r) as [r1 a]. cbn [fst snd] in *.
    apply (invariant_stable r1); [done| |].
    + apply onNotifier_memory.
    + apply keepsLive_onNotifier, alive_subscribe.
  - destruct (cl !! k) as [u|] eqn:Hk; [|done].
    cbn [Session.root Session.closures].
    assert (Hu : u ∈ cl) by by eapply list_elem_of_lookup_2.
    unfold callUnsubscriber.
    set (r1 := onNotifier (of_instance u)
                 (Notifier.unsubscribe (of_callback u)) r).
    assert (Hinv1 : Session.invariant (Session.mk r1 cl)).
    { apply (invariant_stable r); [done| |].
      - apply onNotifier_memory.
      - apply keepsLive_onNotifier, alive_unsubscribe. }
    destruct (negb _); [|done].
    destruct Hinv1 as (owner & Hentries & Hclosures).
    cbn [Session.root Session.closures] in *.
    destruct (dispose_frame (of_instance u) r1) as (_ & Hmem & _).
    exists owner. cbn [Session.root Session.closures]. split.
    + intros i b. cbn [memory set_memory]. rewrite Hmem.
      intros [Hne Hi]%lookup_delete_Some.
      destruct (Hentries i b Hi) as [Ho Hb]. split; [done|].
      apply dispose_keeps_others; [|done].
      destruct (Hclosures u Hu) as [Hou _]. congruence.
    + intros u' Hu'. cbn [heap set_memory]. rewrite dispose_length.
      by apply Hclosures.
  - apply (invariant_stable r); [done| |].
    + cbn. by destruct (isMounted r).
    + apply keepsLive_heap. cbn. by destruct (isMounted r).
  - unfold storeNotifies. destruct (upstream r !! h) as [c|].
    + destruct (checkForUpdates_frame c (set_env e r))
        as (_ & Hmem & Hheap & _).
      apply (invariant_stable r); [done|done|by apply keepsLive_heap].
    + apply (invariant_stable r); [done|done|by apply keepsLive_heap].
  - unfold fireTimer. destruct (timers r) as [|u rest]; [done|].
    unfold timerCallback. cbn [isMounted set_timers].
    apply (invariant_stable r); [done| |apply keepsLive_heap];
      by destruct (isMounted r).
  - unfold flushRegistrations. destruct (Nat.ltb _ _); [|done].
    apply (invariant_stable r); [done| |].
    + assert (Hloop : ∀ batch r0,
                memory (forEach registerStore batch r0) = memory r0).
      { induction batch as [|s batch IH]; intros r0; [done|].
        cbn. unfold forEach in IH. rewrite IH.
        unfold registerStore. destruct (memory r0 !! id s) as [a|] eqn:Ha;
          [|done].
        by destruct (registerStore_subscribes s r0 a Ha) as (_ & Hmem & _);
          unfold registerStore in Hmem; rewrite Ha in Hmem. }
      by rewrite Hloop.
    + eapply keepsLive_trans;
        [|apply keepsLive_forEach, keepsLive_registerStore].
      by apply keepsLive_heap.
  - unfold flushUpdates. destruct (Nat.ltb _ _); [|done].
    apply (invariant_stable r); [done| |].
    + assert (Hloop : ∀ batch r0,
                memory (forEach (λ update r, if isMounted r
                                             then runUpdate update r else r)
                                batch r0) = memory r0).
      { induction batch as [|u batch IH]; intros r0; [done|].
        cbn. unfold forEach in IH. rewrite IH.
        destruct (isMounted r0); [|done].
        unfold runUpdate. cbn [heap log].
        destruct (heap r0 !! target u) as [m|]; [|done].
        by destruct (Notifier.notify (nextValue u) (notifier m)). }
      by rewrite Hloop.
    + eapply keepsLive_trans; cycle 1.
      * apply keepsLive_forEach. intros u r0.
        destruct (isMounted r0);
          [apply keepsLive_runUpdate|apply keepsLive_refl].
      * by apply keepsLive_heap.
  - destruct Hinv as (owner & Hentries & Hclosures).
    cbn [Session.root Session.closures] in *.
    exists owner. cbn [Session.root Session.closures]. split.
    + intros i a. unfold unmount. cbn [memory set_memory].
      by rewrite lookup_empty.
    + intros u Hu. unfold unmount. cbn [heap set_memory].
      rewrite forEach_dispose_length. by apply Hclosures.
Qed.

Lemma invariant_run (calls : list Session.Call) (e : Env) :
  Session.invariant (Session.run calls e).
Proof.
  unfold Session.run.
  assert (Hfold : ∀ calls x, Session.invariant x →
                    Session.invariant (fold_left Session.call calls x)).
  { clear. induction calls as [|c calls IH]; intros x Hx; [done|].
    cbn. by apply IH, invariant_call. }
  apply Hfold. exists (λ _, ""). cbn. split.
  - intros i a. by rewrite lookup_empty.
  - intros u Hu. by apply elem_of_nil in Hu.
Qed.

(** X14: in every state a root can reach from its mount, by reads,
    subscriptions, calls of the closures handed out, registrations, store
    notifications, macrotasks, the two effects and the unmount, every
    entry of the registry refers to an instance whose Notifier is alive.
    So [context.subscribe] never hands a callback to a destroyed Notifier:
    the callback is among the listeners of the instance it returns. *)
Theorem registry_entries_are_live (calls : list Session.Call) (e : Env) :
  let r := Session.root (Session.run calls e) in
  (∀ i a, memory r !! i = Some a → Session.aliveAt a r)
  ∧ (∀ s (cb : Notifier.Listener),
       ∃ m, heap (fst (context_subscribe context s cb r))
              !! of_instance (snd (context_subscribe context s cb r))
            = Some m
            ∧ Notifier.alive (notifier m) = true
            ∧ cb ∈ Notifier.listeners (notifier m)).
Proof.
  intros r. pose proof (invariant_run calls e) as Hinv.
  destruct (Session.run calls e) as [r0 cl]. cbn [Session.root] in r.
  subst r. split.
  - destruct Hinv as (owner & Hentries & _). intros i a Hi.
    by destruct (Hentries i a Hi).
  - intros s cb.
    destruct (invariant_getInstance s cb r0 cl Hinv) as [_ Halive].
    cbn [context_subscribe context].
    destruct (getInstance s r0) as [r1 a]. cbn [fst snd of_instance] in *.
    destruct Halive as (m & Hm & Hlive).
    exists (touched (Notifier.subscribe cb) m).
    rewrite onNotifier_lookup, decide_True, Hm by done.
    split; [done|]. cbn. unfold Notifier.subscribe. rewrite Hlive. cbn.
    split; [done|apply set_add_elem].
Qed.

Lemma registry_entries_are_live_witness :
  Session.aliveAt 0
    (Session.root
       (Session.run [Session.Subscribes Scenario.counter 1;
                     Session.Subscribes Scenario.counter 2;
                     Session.Unsubscribes 0;
                     Session.StoreNotifies 0 (Scenario.counterAt (Js.int 1));
                     Session.TimerFires; Session.UpdateEffect]
                    (Scenario.counterAt Js.posZero))).
Proof.
  destruct (registry_entries_are_live
              [Session.Subscribes Scenario.counter 1;
               Session.Subscribes Scenario.counter 2;
               Session.Unsubscribes 0;
               Session.StoreNotifies 0 (Scenario.counterAt (Js.int 1));
               Session.TimerFires; Session.UpdateEffect]
              (Scenario.counterAt Js.posZero)) as (Hentries & _).
  apply (Hentries "Store-0" 0). reflexivity.
Defined.

End Reachable.

(** ** The check made at registration *)

Section RegistrationCheck.
Import StoreAdapter.
Implicit Types (r : Root) (s : StoreAdapter.StoreAdapter) (a : Address).



End RegistrationCheck.
